(** * PLIC shard processing: [get_iterations], [assemble_shape], [process_shape]

    A shallow embedding of the three functions of
    [notebooks/process_plic_data.ipynb] and of the library calls they make
    ([glob.glob], [sorted], [str.split], [int], [str.format],
    [pandas.read_csv], [pandas.concat], [DataFrame.dropna],
    [DataFrame.reset_index], [DataFrame.to_pickle]).

    Modelling conventions.
    - A Python exception is a [Raise e] result; exceptions carry no message.
    - The file system is a finite map from textual paths to files, plus the
      set of existing directories.  Paths are compared as text (no
      normalisation of [.], [..] or doubled slashes), directory parts of glob
      patterns are taken literally, and only regular files are listed.
    - A text file is the list of its lines, terminators removed: a line
      feed ends a line, and the files hold no carriage return.
    - A cell holds the decimal value denoted by its token; rounding to
      binary32 is not represented (the column [dtype] is recorded as a tag). *)

From Stdlib Require Import ZArith Ascii String DecimalString DecimalN DecimalPos.
From stdpp Require Import base option list sorting strings gmap.

Local Open Scope Z_scope.

(** ** Exceptions *)

(** the exception classes that can come up; [ValueError] also stands for
    its pandas subclasses ([ParserError]), [OSError] for the subclasses that
    are not listed apart ([NotADirectoryError], [FileExistsError]) *)
Inductive exn : Set :=
  | ValueError
  | IndexError
  | UnicodeDecodeError
  | FileNotFoundError
  | OSError.

Inductive result (A : Type) : Type :=
  | OK (a : A)
  | Raise (e : exn).
Arguments OK {A} a.
Arguments Raise {A} e.

Global Instance result_ret : MRet result := @OK.
Global Instance result_bind : MBind result := λ A B f m,
  match m with OK a => f a | Raise e => Raise e end.
Global Instance result_fmap : FMap result := λ A B f m,
  match m with OK a => OK (f a) | Raise e => Raise e end.

Global Instance exn_eq_dec : EqDecision exn.
Proof. solve_decision. Defined.

(** ** Python string primitives *)

Module Py.

(** [s.split(sep)] for a one-character separator: every occurrence of
    [sep] ends a part, empty parts are kept. *)
Fixpoint split (sep : ascii) (s : string) : list string :=
  match s with
  | EmptyString => [EmptyString]
  | String c s' =>
      if Ascii.eqb c sep then EmptyString :: split sep s'
      else match split sep s' with
           | [] => [String c EmptyString]
           | w :: ws => String c w :: ws
           end
  end.

(** [l[-1]] *)
Definition last_item (l : list string) : result string :=
  match last l with Some x => OK x | None => Raise IndexError end.

(** [l[i]] for a non-negative literal index *)
Definition item (l : list string) (i : nat) : result string :=
  match l !! i with Some x => OK x | None => Raise IndexError end.

Fixpoint lstrip (s : string) : string :=
  match s with
  | String c s' => if Ascii.is_space c then lstrip s' else s
  | EmptyString => EmptyString
  end.

Definition strip (s : string) : string :=
  String.rev (lstrip (String.rev (lstrip s))).

Definition is_digit (c : ascii) : bool :=
  match c with
  | "0" | "1" | "2" | "3" | "4" | "5" | "6" | "7" | "8" | "9" => true
  | _ => false
  end%char.

(** a non-empty run of decimal digits, read in base ten *)
Definition digits_value (s : string) : option N :=
  match s with
  | EmptyString => None
  | _ => N.of_uint <$> NilEmpty.uint_of_string s
  end.

(** an optional sign in front of a number *)
Definition take_sign (s : string) : bool * string :=
  match s with
  | String "-" r => (true, r)
  | String "+" r => (false, r)
  | _ => (false, s)
  end.

(** [int(s)]: surrounding white space is stripped, one optional sign, then
    decimal digits.  (The argument always comes out of [split "_"], so the
    digit-grouping underscore of Python 3.6 cannot occur in it.) *)
Definition int (s : string) : result Z :=
  let '(neg, body) := take_sign (strip s) in
  match digits_value body with
  | Some n => OK (if neg then - Z.of_N n else Z.of_N n)
  | None => Raise ValueError
  end.

Fixpoint zeros (n : nat) : string :=
  match n with O => EmptyString | S n' => String "0" (zeros n') end.

Definition digits (n : N) : string := NilEmpty.string_of_uint (N.to_uint n).

Definition zfill (width : nat) (s : string) : string :=
  zeros (width - String.length s) +:+ s.

(** ["{:06d}".format(z)]: sign-aware zero padding to six characters *)
Definition format_06d (z : Z) : string :=
  match z with
  | Zneg p => String "-" (zfill 5 (digits (Npos p)))
  | _ => zfill 6 (digits (Z.to_N z))
  end.

(** [sorted(l)] on strings (code-point order) and on integers *)
Definition sorted_str (l : list string) : list string := merge_sort String.le l.
Definition sorted_int (l : list Z) : list Z := merge_sort Z.le l.

End Py.

(** ** Strings as paths and patterns *)

Fixpoint string_forallb (f : ascii → bool) (s : string) : bool :=
  match s with
  | EmptyString => true
  | String c s' => f c && string_forallb f s'
  end.

Definition no_char (c : ascii) (s : string) : bool :=
  string_forallb (λ d, negb (Ascii.eqb d c)) s.

Fixpoint strip_prefix (pre s : string) : option string :=
  match pre with
  | EmptyString => Some s
  | String c pre' =>
      match s with
      | String d s' => if Ascii.eqb c d then strip_prefix pre' s' else None
      | EmptyString => None
      end
  end.

(** [os.path.split]: the text before and after the last slash *)
Fixpoint os_path_split (p : string) : string * string :=
  match p with
  | EmptyString => (EmptyString, EmptyString)
  | String c p' =>
      if no_char "/" p' then
        if Ascii.eqb c "/" then (EmptyString, p') else (EmptyString, p)
      else let '(h, t) := os_path_split p' in (String c h, t)
  end.

(** [fnmatch.fnmatch] for patterns made of literal characters and [*] (the
    two patterns of this program contain no [?] and no bracket); [star k]
    tries the rest of the pattern [k] at every suffix of the name *)
Fixpoint fnmatch_star (k : string → bool) (n : string) : bool :=
  k n || match n with
         | EmptyString => false
         | String _ n' => fnmatch_star k n'
         end.

Fixpoint fnmatch (pat name : string) : bool :=
  match pat with
  | EmptyString => match name with EmptyString => true | _ => false end
  | String c pat' =>
      if Ascii.eqb c "*" then fnmatch_star (fnmatch pat') name
      else match name with
           | String d name' => Ascii.eqb c d && fnmatch pat' name'
           | EmptyString => false
           end
  end.

Definition is_hidden (s : string) : bool :=
  match s with String "." _ => true | _ => false end.

(** ** Tables *)

Inductive cell : Set :=
  | NaN
  | Inf (negative : bool)
  | Dec (mantissa exponent : Z).   (* mantissa * 10 ^ exponent *)

Inductive label : Set :=
  | Ix (i : nat)                   (* position in a RangeIndex *)
  | Key (k : list cell).           (* values of leading index columns *)

Inductive np_dtype : Set := float32 | float64.

Record DataFrame : Set := {
  columns : list string;
  dtype : np_dtype;
  rows : list (label * list cell)
}.

Global Instance cell_eq_dec : EqDecision cell.
Proof. solve_decision. Defined.
Global Instance label_eq_dec : EqDecision label.
Proof. solve_decision. Defined.
Global Instance np_dtype_eq_dec : EqDecision np_dtype.
Proof. solve_decision. Defined.
Global Instance DataFrame_eq_dec : EqDecision DataFrame.
Proof. solve_decision. Defined.

Definition index (df : DataFrame) : list label := (rows df).*1.
Definition values (df : DataFrame) : list (list cell) := (rows df).*2.

(** ** The file system *)

Inductive file : Set :=
  | TextFile (lines : list string)
  | PickleFile (df : DataFrame).

Record filesystem : Type := {
  dirs : gset string;
  files : gmap string file
}.

(** [glob.glob(pattern)]: the files of directory [dirname] whose name matches
    [basename]; names starting with a dot only match a pattern that starts
    with one.  The order of the result is the listing order of the map. *)
Definition glob_match (dirname basename p : string) : bool :=
  match strip_prefix (dirname +:+ "/") p with
  | Some name =>
      no_char "/" name && fnmatch basename name
      && (negb (is_hidden name) || is_hidden basename)
  | None => false
  end.

Definition glob (fs : filesystem) (pattern : string) : list string :=
  let '(dirname, basename) := os_path_split pattern in
  filter (λ p, glob_match dirname basename p = true) (map_to_list (files fs)).*1.

(** opening a file for reading text; the bytes of a pickle do not decode *)
Definition open_text (fs : filesystem) (p : string) : result (list string) :=
  match files fs !! p with
  | Some (TextFile ls) => OK ls
  | Some (PickleFile _) => Raise UnicodeDecodeError
  | None => Raise FileNotFoundError
  end.

(** ** pandas *)

Module pd.

(** default missing-value markers of [read_csv] *)
Definition na_values : list string :=
  [""; "#N/A"; "#N/A N/A"; "#NA"; "-1.#IND"; "-1.#QNAN"; "-NaN"; "-nan";
   "1.#IND"; "1.#QNAN"; "<NA>"; "N/A"; "NA"; "NULL"; "NaN"; "None"; "n/a";
   "nan"; "null"].

Fixpoint span_digits (s : string) : string * string :=
  match s with
  | String c s' =>
      if Py.is_digit c
      then let '(d, r) := span_digits s' in (String c d, r)
      else (EmptyString, s)
  | EmptyString => (EmptyString, EmptyString)
  end.

Definition nat_value (s : string) : Z :=
  Z.of_N (default 0%N (N.of_uint <$> NilEmpty.uint_of_string s)).

(** exponent part: nothing, or [e]/[E], an optional sign and digits *)
Definition exponent_of (s : string) : option Z :=
  match s with
  | EmptyString => Some 0
  | String c r =>
      if Ascii.eqb c "e" || Ascii.eqb c "E" then
        let '(neg, r1) := Py.take_sign r in
        let '(ds, r2) := span_digits r1 in
        match ds, r2 with
        | String _ _, EmptyString =>
            Some (if neg then - nat_value ds else nat_value ds)
        | _, _ => None
        end
      else None
  end.

(** a decimal literal: sign, integer digits, optional fraction, optional
    exponent, at least one digit before the exponent *)
Definition decimal_literal (s : string) : option cell :=
  let '(neg, s1) := Py.take_sign (Py.strip s) in
  let '(ip, s2) := span_digits s1 in
  let '(fp, s3) :=
    match s2 with
    | String "." r => span_digits r
    | _ => (EmptyString, s2)
    end in
  match ip +:+ fp with
  | EmptyString => None
  | ds =>
      e ← exponent_of s3;
      let m := nat_value ds in
      Some (Dec (if neg then - m else m) (e - Z.of_nat (String.length fp)))
  end.

Definition lower (c : ascii) : ascii :=
  let n := N_of_ascii c in
  if (65 <=? n)%N && (n <=? 90)%N then ascii_of_N (n + 32) else c.

Fixpoint lower_string (s : string) : string :=
  match s with
  | EmptyString => EmptyString
  | String c s' => String (lower c) (lower_string s')
  end.

Definition infinity_literal (s : string) : option cell :=
  let '(neg, r) := Py.take_sign (lower_string s) in
  if bool_decide (r = "inf" ∨ r = "infinity") then Some (Inf neg) else None.

(** conversion of one field under [dtype=np.float32] with the default
    [na_filter]: a missing-value marker gives NaN, a numeric literal its
    value, anything else makes the read fail *)
Definition to_float (tok : string) : result cell :=
  if bool_decide (tok ∈ na_values) then OK NaN
  else match decimal_literal tok with
       | Some c => OK c
       | None =>
           match infinity_literal tok with
           | Some c => OK c
           | None => Raise ValueError
           end
       end.

(** a line that the tokenizer skips at the start of a record
    ([skip_blank_lines]): empty, or made of white space other than the
    delimiter *)
Definition blank_line (l : string) : bool :=
  string_forallb (λ c, Ascii.eqb c "009") l.

(** the tokenizer of the C engine with [sep=" "] and the default quoting:
    the delimiter is one space, the quote character the double quote, and a
    doubled quote inside a quoted field stands for one quote *)
Definition delimiter : ascii := " ".
Definition quotechar : ascii := "034".
Definition line_feed : string := String "010" EmptyString.

Inductive tok_state : Set :=
  | StartField
  | InField
  | InQuotedField
  | QuoteInQuotedField.

(** the characters of one line; [cur] is the text of the field being read,
    [rec] holds the fields of the record that are complete *)
Fixpoint tokenize_line (st : tok_state) (cur : string) (rec : list string)
    (s : string) : tok_state * string * list string :=
  match s with
  | EmptyString => (st, cur, rec)
  | String c s' =>
      match st with
      | StartField =>
          if Ascii.eqb c quotechar then tokenize_line InQuotedField cur rec s'
          else if Ascii.eqb c delimiter
               then tokenize_line StartField EmptyString (rec ++ [cur]) s'
               else tokenize_line InField (cur +:+ String c EmptyString) rec s'
      | InField =>
          if Ascii.eqb c delimiter
          then tokenize_line StartField EmptyString (rec ++ [cur]) s'
          else tokenize_line InField (cur +:+ String c EmptyString) rec s'
      | InQuotedField =>
          if Ascii.eqb c quotechar then tokenize_line QuoteInQuotedField cur rec s'
          else tokenize_line InQuotedField (cur +:+ String c EmptyString) rec s'
      | QuoteInQuotedField =>
          if Ascii.eqb c quotechar
          then tokenize_line InQuotedField (cur +:+ String c EmptyString) rec s'
          else if Ascii.eqb c delimiter
               then tokenize_line StartField EmptyString (rec ++ [cur]) s'
               else tokenize_line InField (cur +:+ String c EmptyString) rec s'
      end
  end.

(** the end of a line: inside a quoted field the line feed belongs to the
    field and the record goes on with the next line ([inl]); otherwise the
    field and the record end ([inr]) *)
Definition end_of_line (r : tok_state * string * list string)
    : (string * list string) + list string :=
  let '(st, cur, rec) := r in
  match st with
  | InQuotedField => inl (cur +:+ line_feed, rec)
  | _ => inr (rec ++ [cur])
  end.

(** the records of a file, and whether the file ends inside a quoted field;
    [carry] is the open field and record handed over by the previous line.
    Blank lines are skipped where a record would start. *)
Fixpoint tokenize (carry : option (string * list string)) (lines : list string)
    : list (list string) * bool :=
  match lines with
  | [] => ([], match carry with Some _ => true | None => false end)
  | l :: rest =>
      match carry with
      | None =>
          if blank_line l then tokenize None rest
          else match end_of_line (tokenize_line StartField EmptyString [] l) with
               | inl c => tokenize (Some c) rest
               | inr r => let '(recs, open) := tokenize None rest in
                          (r :: recs, open)
               end
      | Some (cur, rec) =>
          match end_of_line (tokenize_line InQuotedField cur rec l) with
          | inl c => tokenize (Some c) rest
          | inr r => let '(recs, open) := tokenize None rest in
                     (r :: recs, open)
          end
      end
  end.

Definition records (lines : list string) : list (list string) :=
  (tokenize None lines).1.

Definition unterminated (lines : list string) : bool :=
  (tokenize None lines).2.

(** [pd.read_csv(file, sep=" ", names=names, engine='c', dtype=np.float32)].
    A file that ends inside a quoted field is a parse error.  Passing
    [names] fixes the expected number of fields: the longer of the first
    record and the column list.  Shorter records are padded with empty
    fields, a longer one is a parse error; when the first record is longer
    than the column list, its extra leading fields become the row labels.
    Every field of the table is converted with [to_float], so one field that
    does not convert fails the whole read.  A file without records gives an
    empty frame with the given columns. *)
Definition read_csv (fs : filesystem) (path : string) (names : list string)
    : result DataFrame :=
  lines ← open_text fs path;
  if unterminated lines then Raise ValueError   (* EOF inside string *)
  else
    let recs := records lines in
    let n := length names in
    let width := match recs with [] => n | r :: _ => Nat.max (length r) n end in
    if bool_decide (Forall (λ r, (length r ≤ width)%nat) recs) then
      let lead := (width - n)%nat in
      table ← mapM (λ r, mapM to_float (resize width EmptyString r)) recs;
      OK {| columns := names;
            dtype := float32;
            rows := imap (λ i r, (if decide (lead = 0%nat) then Ix i
                                  else Key (take lead r),
                                  drop lead r)) table |}
    else Raise ValueError.                      (* Expected width fields *)

(** [pd.concat(frames)]; all the frames this program concatenates carry
    the same column list *)
Definition concat (frames : list DataFrame) : result DataFrame :=
  match frames with
  | [] => Raise ValueError        (* No objects to concatenate *)
  | f :: _ =>
      OK {| columns := columns f;
            dtype := dtype f;
            rows := mjoin (rows <$> frames) |}
  end.

Definition has_nan (r : list cell) : bool := bool_decide (NaN ∈ r).

(** [df.dropna()]: rows with a missing value in any column go *)
Definition dropna (df : DataFrame) : DataFrame :=
  {| columns := columns df;
     dtype := dtype df;
     rows := filter (λ r, has_nan r.2 = false) (rows df) |}.

(** [df.reset_index(drop=True)] *)
Definition reset_index (df : DataFrame) : DataFrame :=
  {| columns := columns df;
     dtype := dtype df;
     rows := imap (λ i r, (Ix i, r.2)) (rows df) |}.

(** [df.to_pickle(path)]: the frame is written whole; the directory of
    [path] must exist *)
Definition to_pickle (fs : filesystem) (path : string) (df : DataFrame)
    : result (unit * filesystem) :=
  if bool_decide ((os_path_split path).1 ∈ dirs fs)
  then OK (tt, {| dirs := dirs fs;
                  files := <[path := PickleFile df]> (files fs) |})
  else Raise OSError.       (* Cannot save file into a non-existent directory *)

End pd.

(** ** The program *)

Definition assemble_shape (fs : filesystem) (path : string) (iteration : Z)
    (shape_2D : bool) : result DataFrame :=
  let base_name := path +:+ "/points_" +:+ Py.format_06d iteration +:+ "_n" in
  let files := Py.sorted_str (glob fs (base_name +:+ "*")) in
  let columns := if shape_2D then ["px"; "py"] else ["px"; "py"; "pz"] in
  points ← mapM (λ file, pd.read_csv fs file columns) files;
  all_points ← pd.concat points;
  let all_points := pd.dropna all_points in
  OK (pd.reset_index all_points).

Definition get_iterations (fs : filesystem) (path : string) : result (list Z) :=
  let file_paths := glob fs (path +:+ "/*_n000.txt") in
  iterations ←
    mapM (λ path,
            name ← Py.last_item (Py.split "/" path);
            field ← Py.item (Py.split "_" name) 1;
            Py.int field)
         file_paths;
  OK (Py.sorted_int iterations).

Definition process_shape (fs : filesystem) (source target : string)
    (iteration : Z) (shape_2D : bool) : result (unit * filesystem) :=
  data ← assemble_shape fs source iteration shape_2D;
  let file_name := "plic_" +:+ Py.format_06d iteration +:+ ".pkl" in
  pd.to_pickle fs (target +:+ "/" +:+ file_name) data.

(** * Vocabulary of the statements *)

(** ** Names and paths *)

Definition shard_prefix (it : Z) : string :=
  "points_" +:+ Py.format_06d it +:+ "_n".

(** name of the shard written by process 0 at iteration [it] *)
Definition shard0_name (it : Z) : string :=
  "points_" +:+ Py.format_06d it +:+ "_n000.txt".

(** where [process_shape] writes the table of iteration [it] *)
Definition artifact_path (target : string) (it : Z) : string :=
  target +:+ "/" +:+ "plic_" +:+ Py.format_06d it +:+ ".pkl".

(** the local [files] of [assemble_shape] *)
Definition shard_files (fs : filesystem) (path : string) (it : Z) : list string :=
  Py.sorted_str (glob fs (path +:+ "/" +:+ shard_prefix it +:+ "*")).

(** the local [columns] of [assemble_shape] *)
Definition schema (shape_2D : bool) : list string :=
  if shape_2D then ["px"; "py"] else ["px"; "py"; "pz"].

(** the body of the comprehension in [get_iterations] *)
Definition iteration_of (p : string) : result Z :=
  name ← Py.last_item (Py.split "/" p);
  field ← Py.item (Py.split "_" name) 1;
  Py.int field.

Definition value_of (f : string → result Z) (p : string) : Z :=
  match f p with OK z => z | Raise _ => 0 end.

(** creating or overwriting one file *)
Definition write_file (fs : filesystem) (p : string) (c : file) : filesystem :=
  {| dirs := dirs fs; files := <[p := c]> (files fs) |}.

Definition lines_of (fs : filesystem) (p : string) : list string :=
  match files fs !! p with Some (TextFile ls) => ls | _ => [] end.

(** ** Lines, fields and rows *)

(** number of fields kept per record: the longer of the first record and
    the column list *)
Definition table_width (recs : list (list string)) (n : nat) : nat :=
  match recs with [] => n | r :: _ => Nat.max (length r) n end.

(** row [row] of a frame holds the converted fields of record [rec], the
    leading ones ([key]) having gone to the row label *)
Definition row_of_record (rec : list string) (row : list cell) : Prop :=
  ∃ key, mapM pd.to_float (resize (length key + length row) EmptyString rec)
         = OK (key ++ row).

(** the field converts, to a number or to NaN *)
Definition converts (tok : string) : bool :=
  match pd.to_float tok with OK _ => true | Raise _ => false end.

(** the field denotes a number *)
Definition numeric (tok : string) : bool :=
  match pd.to_float tok with
  | OK NaN => false
  | OK _ => true
  | Raise _ => false
  end.

Definition cell_of (tok : string) : cell :=
  match pd.to_float tok with OK c => c | Raise _ => NaN end.

(** a well-formed point line for [n] columns: [n] fields separated by single
    spaces, each denoting a number *)
Definition point_line (n : nat) (l : string) : bool :=
  bool_decide (length (Py.split " " l) = n
               ∧ Forall (λ tok, numeric tok = true) (Py.split " " l)).

Definition point_of_line (l : string) : list cell :=
  cell_of <$> Py.split " " l.

(** the row that a record of at most [n] fields gives under [n] columns *)
Definition row_of_line (n : nat) (l : string) : list cell :=
  cell_of <$> resize n EmptyString (Py.split " " l).

(** a line that holds at most [n] fields, all of which convert *)
Definition short_line (n : nat) (l : string) : Prop :=
  (length (Py.split " " l) ≤ n)%nat
  ∧ Forall (λ tok, converts tok = true) (Py.split " " l).

(** a character that may stand in an unquoted field *)
Definition literal_char (c : ascii) : bool :=
  negb (Ascii.eqb c pd.quotechar).

(** the same notions for a record as the tokenizer delivers it: a complete
    record for [n] columns, the row of a record of at most [n] fields, a
    record of at most [n] fields that all convert *)
Definition point_record (n : nat) (r : list string) : bool :=
  bool_decide (length r = n ∧ Forall (λ tok, numeric tok = true) r).


Definition row_of_fields (n : nat) (r : list string) : list cell :=
  cell_of <$> resize n EmptyString r.

Definition short_record (n : nat) (r : list string) : Prop :=
  (length r ≤ n)%nat ∧ Forall (λ tok, converts tok = true) r.

(** ** Sample file systems *)

Definition mkfs (ds : list string) (fl : list (string * file)) : filesystem :=
  {| dirs := list_to_set ds; files := list_to_map fl |}.

(** the end-to-end example: two shards for iteration 120, one for 130 *)
Definition fs_example : filesystem :=
  mkfs ["plic"; "out"]
    [("plic/points_000120_n000.txt", TextFile ["0.1 0.2"; ""; "0.3 0.4"; "0.5 0.6"]);
     ("plic/points_000120_n001.txt", TextFile ["0.7 0.8"]);
     ("plic/points_000130_n000.txt", TextFile ["1 2"])].

Definition fs_empty : filesystem := mkfs [] [].

(** two files ending in [_n000.txt] whose second field reads ten *)
Definition fs_dup : filesystem :=
  mkfs ["plic"]
    [("plic/points_000010_n000.txt", TextFile ["0.1 0.2"]);
     ("plic/run_10_n000.txt", TextFile ["0.3 0.4"])].

(** a file ending in [_n000.txt] without an iteration number *)
Definition fs_stray : filesystem :=
  mkfs ["plic"]
    [("plic/points_000010_n000.txt", TextFile ["0.1 0.2"]);
     ("plic/notes_n000.txt", TextFile ["remember to rerun"])].


(** a shard with a line that is too short and a missing-value marker *)
Definition fs_ragged : filesystem :=
  mkfs ["plic"]
    [("plic/points_000120_n000.txt",
      TextFile ["0.1 0.2"; "0.3"; "nan 0.4"; "0.5 0.6"])].

(** a stray copy that shares the prefix of iteration 120 *)
Definition fs_backup : filesystem :=
  mkfs ["plic"]
    [("plic/points_000120_n000.txt", TextFile ["0.1 0.2"]);
     ("plic/points_000120_n000.txt.bak", TextFile ["9.1 9.2"])].

(** [s] between double quotes *)
Definition quoted (s : string) : string :=
  String pd.quotechar (s +:+ String pd.quotechar EmptyString).


(** a shard whose separator line holds one space *)
Definition fs_spaces : filesystem :=
  mkfs ["plic"]
    [("plic/points_000120_n000.txt", TextFile ["0.1 0.2"; " "; "0.3 0.4"])].

(** a shard whose separator line holds three spaces *)
Definition fs_wide_blank : filesystem :=
  mkfs ["plic"]
    [("plic/points_000120_n000.txt", TextFile ["0.1 0.2"; "   "; "0.3 0.4"])].

(** a shard with separator lines that are empty or hold tabs *)
Definition fs_tabs : filesystem :=
  mkfs ["plic"]
    [("plic/points_000120_n000.txt",
      TextFile ["0.1 0.2"; String "009" EmptyString; ""; "0.3 0.4"]);
     ("plic/points_000120_n001.txt", TextFile [""; "0.5 0.6"])].

(** [fs_example] after [process_shape] has run once for iteration 120 *)
Definition fs_first_run : filesystem :=
  match process_shape fs_example "plic" "out" 120 true with
  | OK (_, fs1) => fs1
  | Raise _ => fs_example
  end.

(** ** The batch driver (last cell of the notebook) *)

(** [os.path.exists(p)] *)
Definition path_exists (fs : filesystem) (p : string) : bool :=
  bool_decide (p ∈ dirs fs ∨ is_Some (files fs !! p)).

(** the directories named along [pre ++ s]: the text before each slash of
    [s], and the whole path *)
Fixpoint ancestors_from (pre s : string) : list string :=
  match s with
  | EmptyString => [pre]
  | String c s' =>
      if Ascii.eqb c "/" then pre :: ancestors_from (pre +:+ "/") s'
      else ancestors_from (pre +:+ String c EmptyString) s'
  end.

(** [os.makedirs(p)], for a path that does not exist yet: the leaf
    directory and every intermediate one are created; the call fails when a
    component of the path is a regular file *)
Definition makedirs (fs : filesystem) (p : string) : result (unit * filesystem) :=
  if bool_decide (Exists (λ a, is_Some (files fs !! a))
                         (ancestors_from EmptyString p))
  then Raise OSError
  else OK (tt, {| dirs := list_to_set (ancestors_from EmptyString p) ∪ dirs fs;
                  files := files fs |}).

(** [Parallel(n_jobs=4)(delayed(process_shape)(source, target, it, shape_2D)
    for it in iterations)]: one job per iteration.  The jobs are run here one
    after the other, in the order of [schedule]; a job reads the shards of
    its iteration and writes its own artifact only, and the order is proved
    not to matter. *)
Fixpoint run_jobs (fs : filesystem) (source target : string) (shape_2D : bool)
    (schedule : list Z) : result (unit * filesystem) :=
  match schedule with
  | [] => OK (tt, fs)
  | it :: rest =>
      r ← process_shape fs source target it shape_2D;
      run_jobs r.2 source target shape_2D rest
  end.

(** the body of the loop over the simulation cases *)
Definition process_case (fs : filesystem)
    (source_base target_base plic_source plic_target case : string)
    : result (unit * filesystem) :=
  let source := source_base +:+ "/" +:+ case +:+ "/" +:+ plic_source in
  iterations ← get_iterations fs source;
  let target := target_base +:+ "/" +:+ case +:+ "/" +:+ plic_target in
  r ← (if path_exists fs target then OK (tt, fs) else makedirs fs target);
  run_jobs r.2 source target true iterations.

(** ** Further vocabulary and samples *)

Fixpoint last_char (s : string) : option ascii :=
  match s with
  | EmptyString => None
  | String c EmptyString => Some c
  | String _ s' => last_char s'
  end.

(** a three-dimensional shard *)
Definition fs_three : filesystem :=
  mkfs ["plic"]
    [("plic/points_000120_n000.txt", TextFile ["1 2 3"; ""; "4 5 6"])].

(** a case directory as the notebook lays it out *)
Definition fs_case : filesystem :=
  mkfs ["../data"; "../data/wa18_l16"; "../data/wa18_l16/plic"]
    [("../data/wa18_l16/plic/points_000000_n000.txt", TextFile ["0.1 0.2"]);
     ("../data/wa18_l16/plic/points_000010_n000.txt", TextFile ["0.3 0.4"; ""]);
     ("../data/wa18_l16/plic/points_000010_n001.txt", TextFile ["0.5 0.6"])].

(** * Examples *)

Example split_shard_name :
  Py.split "_" "points_000120_n008.txt" = ["points"; "000120"; "n008.txt"].
Proof. reflexivity. Qed.

Example format_examples :
  Py.format_06d 120 = "000120" ∧ Py.format_06d (-5) = "-00005"
  ∧ Py.format_06d 1234567 = "1234567" ∧ Py.format_06d 0 = "000000".
Proof. repeat split; reflexivity. Qed.

Example int_examples :
  Py.int "000120" = OK 120 ∧ Py.int "n000.txt" = Raise ValueError
  ∧ Py.int "" = Raise ValueError ∧ Py.int "-00005" = OK (-5).
Proof. repeat split; reflexivity. Qed.

Example sorted_examples :
  Py.sorted_str ["b"; "a10"; "a1"] = ["a1"; "a10"; "b"]
  ∧ Py.sorted_int [20; 0; 10] = [0; 10; 20].
Proof. split; vm_compute; reflexivity. Qed.

Example tokenizer_examples :
  pd.records ["0.1 0.2"; ""; "0.3  0.4"] = [["0.1"; "0.2"]; ["0.3"; ""; "0.4"]]
  ∧ pd.records [quoted "0.1" +:+ " 0.2"] = [["0.1"; "0.2"]]
  ∧ pd.records [quoted "a b" +:+ " c"] = [["a b"; "c"]]
  ∧ pd.records [String pd.quotechar "0.1"; "0.2" +:+ String pd.quotechar " 0.3"]
    = [["0.1" +:+ pd.line_feed +:+ "0.2"; "0.3"]]
  ∧ pd.unterminated [String pd.quotechar "0.1 0.2"] = true
  ∧ pd.records [" "] = [[""; ""]]
  ∧ pd.records [String "009" EmptyString] = [].
Proof. repeat split; vm_compute; reflexivity. Qed.

Example to_float_examples :
  pd.to_float "0.25" = OK (Dec 25 (-2)) ∧ pd.to_float "-1e3" = OK (Dec (-1) 3)
  ∧ pd.to_float "" = OK NaN ∧ pd.to_float "None" = OK NaN
  ∧ pd.to_float "-inf" = OK (Inf true)
  ∧ pd.to_float "abc" = Raise ValueError
  ∧ pd.to_float (quoted "0.1") = Raise ValueError.
Proof. repeat split; vm_compute; reflexivity. Qed.

Example end_to_end :
  assemble_shape fs_example "plic" 120 true
  = OK {| columns := ["px"; "py"]; dtype := float32;
          rows := [(Ix 0, [Dec 1 (-1); Dec 2 (-1)]);
                   (Ix 1, [Dec 3 (-1); Dec 4 (-1)]);
                   (Ix 2, [Dec 5 (-1); Dec 6 (-1)]);
                   (Ix 3, [Dec 7 (-1); Dec 8 (-1)])] |}.
Proof. vm_compute. reflexivity. Qed.

Example discovery_example : get_iterations fs_example "plic" = OK [120; 130].
Proof. vm_compute. reflexivity. Qed.

(** * Properties *)

(** ** The exception monad *)

Section mapM_result.
Context {A B : Type} (f : A → result B).

Lemma mapM_result_nil : mapM f [] = OK [].
Proof. reflexivity. Qed.

Lemma mapM_result_cons x l :
  mapM f (x :: l) =
  match f x with
  | OK y => match mapM f l with OK k => OK (y :: k) | Raise e => Raise e end
  | Raise e => Raise e
  end.
Proof. reflexivity. Qed.

Lemma mapM_OK l k : mapM f l = OK k ↔ Forall2 (λ x y, f x = OK y) l k.
Proof.
  revert k. induction l as [|x l IH]; intros k.
  - rewrite mapM_result_nil. split.
    + intros [= <-]. constructor.
    + intros H. by inversion H.
  - rewrite mapM_result_cons. split.
    + destruct (f x) as [y|e] eqn:Hx; [|done].
      destruct (mapM f l) as [k'|e] eqn:Hl; [|done].
      intros [= <-]. constructor; [done|]. by apply IH.
    + intros H. inversion H as [|? y ? k' Hx Hl]; subst.
      rewrite Hx. apply IH in Hl. by rewrite Hl.
Qed.

Lemma mapM_OK_length l k : mapM f l = OK k → length k = length l.
Proof. intros H%mapM_OK. symmetry. by eapply Forall2_length. Qed.

Lemma mapM_Raise l e : mapM f l = Raise e → ∃ x, x ∈ l ∧ f x = Raise e.
Proof.
  induction l as [|x l IH]; [done|].
  rewrite mapM_result_cons.
  destruct (f x) as [y|e'] eqn:Hx.
  - destruct (mapM f l) as [k'|e'] eqn:Hl; [done|].
    intros [= ->]. destruct IH as (z & ? & ?); [done|].
    exists z. split; [by right|done].
  - intros [= ->]. exists x. split; [by left|done].
Qed.

Lemma mapM_some_Raise l x e :
  x ∈ l → f x = Raise e → ∃ e', mapM f l = Raise e'.
Proof.
  intros Hin Hx. destruct (mapM f l) as [k|e'] eqn:Hl; [|by eauto].
  apply mapM_OK in Hl. apply list_elem_of_lookup in Hin as [i Hi].
  destruct (Forall2_lookup_l _ _ _ _ _ Hl Hi) as (y & _ & Hy). congruence.
Qed.

End mapM_result.

(** ** Strings *)

Lemma string_app_nil_l (s : string) : "" +:+ s = s.
Proof. reflexivity. Qed.

Lemma string_app_cons c (a b : string) : String c a +:+ b = String c (a +:+ b).
Proof. reflexivity. Qed.

Ltac str_simpl :=
  repeat first [rewrite string_app_cons | rewrite string_app_nil_l]; simpl.

Lemma string_app_nil_r (s : string) : s +:+ "" = s.
Proof. induction s; str_simpl; congruence. Qed.

Lemma string_app_assoc (a b c : string) : (a +:+ b) +:+ c = a +:+ b +:+ c.
Proof. induction a; str_simpl; congruence. Qed.

Lemma string_forallb_app f a b :
  string_forallb f (a +:+ b) = string_forallb f a && string_forallb f b.
Proof. induction a as [|c a IH]; str_simpl; [done|]. rewrite IH. by destruct (f c). Qed.

Lemma string_forallb_impl (f g : ascii → bool) s :
  (∀ c, f c = true → g c = true) →
  string_forallb f s = true → string_forallb g s = true.
Proof.
  intros Hfg. induction s as [|c s IH]; simpl; [done|].
  intros [Hc Hs]%andb_true_iff. rewrite (Hfg _ Hc). simpl. auto.
Qed.

Lemma string_forallb_rev_app f s acc :
  string_forallb f (String.rev_app s acc)
  = string_forallb f s && string_forallb f acc.
Proof.
  revert acc. induction s as [|c s IH]; intros acc; simpl; [done|].
  rewrite IH. simpl. destruct (f c), (string_forallb f s); done.
Qed.

Lemma string_rev_app_rev_app s a b :
  String.rev_app (String.rev_app s a) b = String.rev_app a (s +:+ b).
Proof. revert a b. induction s as [|c s IH]; intros a b; str_simpl; [done|]. by rewrite IH. Qed.

Lemma string_rev_involutive s : String.rev (String.rev s) = s.
Proof. unfold String.rev. rewrite string_rev_app_rev_app. simpl. apply string_app_nil_r. Qed.

Lemma no_char_app c a b : no_char c (a +:+ b) = no_char c a && no_char c b.
Proof. apply string_forallb_app. Qed.

Lemma strip_prefix_app pre s : strip_prefix pre (pre +:+ s) = Some s.
Proof. induction pre as [|c pre IH]; str_simpl; [done|]. by rewrite Ascii.eqb_refl. Qed.

Lemma strip_prefix_Some pre s r : strip_prefix pre s = Some r → s = pre +:+ r.
Proof.
  revert s. induction pre as [|c pre IH]; intros s; str_simpl; [congruence|].
  destruct s as [|d s]; [done|].
  destruct (Ascii.eqb_spec c d) as [->|]; [|done]. intros H. by rewrite (IH _ H).
Qed.

Lemma os_path_split_join a b :
  no_char "/" b = true → os_path_split (a +:+ "/" +:+ b) = (a, b).
Proof.
  intros Hb. change ("/" +:+ b) with (String "/" b).
  induction a as [|c a IH]; str_simpl.
  - by rewrite Hb.
  - rewrite no_char_app. simpl. rewrite andb_false_r. by rewrite IH.
Qed.

(** *** Wild-card matching *)

Lemma fnmatch_star_spec k n :
  fnmatch_star k n = true ↔ ∃ a b, n = a +:+ b ∧ k b = true.
Proof.
  induction n as [|c n IH]; simpl.
  - rewrite orb_false_r. split.
    + intros H. by exists "", "".
    + intros (a & b & Hab & Hk). destruct a; [|done].
      rewrite string_app_nil_l in Hab. by subst.
  - rewrite orb_true_iff, IH. split.
    + intros [H|(a & b & -> & Hk)].
      * by exists "", (String c n).
      * by exists (String c a), b.
    + intros (a & b & Hab & Hk). destruct a as [|d a].
      * left. rewrite string_app_nil_l in Hab. by subst.
      * right. rewrite string_app_cons in Hab. injection Hab as -> ->.
        by exists a, b.
Qed.

Lemma fnmatch_literal pat name :
  no_char "*" pat = true → fnmatch pat name = true ↔ name = pat.
Proof.
  revert name. induction pat as [|c pat IH]; intros name; simpl.
  - intros _. destruct name; split; done.
  - intros [Hc Hpat]%andb_true_iff. apply negb_true_iff in Hc. rewrite Hc.
    destruct name as [|d name]; [done|].
    rewrite andb_true_iff, (IH _ Hpat). split.
    + intros [->%Ascii.eqb_eq ->]. done.
    + intros [= -> ->]. by rewrite Ascii.eqb_refl.
Qed.

(** a literal prefix followed by a star matches exactly the names that
    start with the prefix *)
Lemma fnmatch_prefix_star pre name :
  no_char "*" pre = true →
  fnmatch (pre +:+ "*") name = true ↔ ∃ r, name = pre +:+ r.
Proof.
  revert name. induction pre as [|c pre IH]; intros name; str_simpl.
  - intros _. rewrite fnmatch_star_spec. split; [by eauto|].
    intros _. exists name, "". by rewrite string_app_nil_r.
  - intros [Hc Hpre]%andb_true_iff. apply negb_true_iff in Hc. rewrite Hc.
    destruct name as [|d name].
    + split; [done|]. by intros [? ?].
    + rewrite andb_true_iff, (IH _ Hpre). split.
      * intros [->%Ascii.eqb_eq [r ->]]. by exists r.
      * intros [r Hr]. rewrite string_app_cons in Hr. injection Hr as -> ->.
        rewrite Ascii.eqb_refl. by eauto.
Qed.

(** a star followed by a literal suffix matches exactly the names that end
    with the suffix *)
Lemma fnmatch_star_suffix suf name :
  no_char "*" suf = true →
  fnmatch ("*" +:+ suf) name = true ↔ ∃ r, name = r +:+ suf.
Proof.
  intros Hsuf. str_simpl. rewrite fnmatch_star_spec. split.
  - intros (a & b & -> & Hb%fnmatch_literal); [|done]. subst. by exists a.
  - intros [r ->]. exists r, suf. split; [done|]. by apply fnmatch_literal.
Qed.

(** *** [str.split] *)

Lemma split_nonempty sep s : Py.split sep s ≠ [].
Proof.
  destruct s as [|c s]; simpl; [done|].
  destruct (Ascii.eqb c sep); [done|]. by destruct (Py.split sep s).
Qed.

Lemma split_no_sep sep s : no_char sep s = true → Py.split sep s = [s].
Proof.
  induction s as [|c s IH]; simpl; [done|].
  intros [Hc Hs]%andb_true_iff. apply negb_true_iff in Hc.
  by rewrite Hc, (IH Hs).
Qed.

Lemma split_app sep a b :
  Py.split sep (a +:+ String sep b) = Py.split sep a ++ Py.split sep b.
Proof.
  induction a as [|c a IH]; str_simpl.
  - by rewrite Ascii.eqb_refl.
  - destruct (Ascii.eqb c sep); rewrite IH; [done|].
    pose proof (split_nonempty sep a). by destruct (Py.split sep a).
Qed.

Lemma split_last sep a b :
  no_char sep b = true → last (Py.split sep (a +:+ String sep b)) = Some b.
Proof. intros Hb. by rewrite split_app, (split_no_sep _ _ Hb), last_snoc. Qed.

(** ** Formatting and reading integers *)

Lemma uint_all_digits d :
  string_forallb Py.is_digit (NilEmpty.string_of_uint d) = true.
Proof. induction d; simpl; auto. Qed.

Lemma zeros_all_digits k : string_forallb Py.is_digit (Py.zeros k) = true.
Proof. induction k; simpl; auto. Qed.

Lemma zfill_all_digits w n :
  string_forallb Py.is_digit (Py.zfill w (Py.digits n)) = true.
Proof.
  unfold Py.zfill, Py.digits.
  by rewrite string_forallb_app, zeros_all_digits, uint_all_digits.
Qed.

Lemma uint_of_string_zeros k s :
  NilEmpty.uint_of_string (Py.zeros k +:+ s)
  = Nat.iter k Decimal.D0 <$> NilEmpty.uint_of_string s.
Proof.
  induction k as [|k IH]; str_simpl.
  - by destruct (NilEmpty.uint_of_string s).
  - rewrite IH. by destruct (NilEmpty.uint_of_string s).
Qed.

Lemma N_of_uint_zeros k d : N.of_uint (Nat.iter k Decimal.D0 d) = N.of_uint d.
Proof. induction k as [|k IH]; simpl; [done|]. exact IH. Qed.

Lemma string_of_uint_N_nonempty n :
  NilEmpty.string_of_uint (N.to_uint n) ≠ "".
Proof.
  intros H.
  assert (NilEmpty.uint_of_string (NilEmpty.string_of_uint (N.to_uint n))
          = Some Decimal.Nil) as Hn by (by rewrite H).
  rewrite NilEmpty.usu in Hn. injection Hn as Hn.
  destruct n as [|p]; [done|]. simpl in Hn.
  by destruct (DecimalPos.Unsigned.to_uint_nonnil p).
Qed.

Lemma zfill_nonempty w n : Py.zfill w (Py.digits n) ≠ "".
Proof.
  unfold Py.zfill, Py.digits. pose proof (string_of_uint_N_nonempty n) as Hn.
  destruct (Py.zeros _); str_simpl; [done|done].
Qed.

Lemma digits_value_zfill w n :
  Py.digits_value (Py.zfill w (Py.digits n)) = Some n.
Proof.
  unfold Py.digits_value. pose proof (zfill_nonempty w n) as Hne.
  destruct (Py.zfill w (Py.digits n)) eqn:Heq; [done|]. rewrite <-Heq.
  unfold Py.zfill, Py.digits. rewrite uint_of_string_zeros, NilEmpty.usu. simpl.
  by rewrite N_of_uint_zeros, DecimalN.Unsigned.of_to.
Qed.

Lemma lstrip_id s :
  match s with String c _ => Ascii.is_space c = false | EmptyString => True end →
  Py.lstrip s = s.
Proof. destruct s as [|c s]; simpl; [done|]. by intros ->. Qed.

Lemma strip_no_space s :
  string_forallb (λ c, negb (Ascii.is_space c)) s = true → Py.strip s = s.
Proof.
  intros Hs. unfold Py.strip.
  assert (∀ t, string_forallb (λ c, negb (Ascii.is_space c)) t = true →
               Py.lstrip t = t) as Hl.
  { intros t Ht. apply lstrip_id. destruct t as [|c t]; [done|].
    simpl in Ht. apply andb_true_iff in Ht as [Hc _]. by apply negb_true_iff. }
  rewrite (Hl s Hs), Hl, string_rev_involutive; [done|].
  unfold String.rev. by rewrite string_forallb_rev_app, Hs.
Qed.

Lemma is_digit_not_space c : Py.is_digit c = true → Ascii.is_space c = false.
Proof.
  destruct c as [[] [] [] [] [] [] [] []]; simpl; congruence.
Qed.

Lemma digits_no_space s :
  string_forallb Py.is_digit s = true →
  string_forallb (λ c, negb (Ascii.is_space c)) s = true.
Proof.
  apply string_forallb_impl. intros c Hc. by rewrite (is_digit_not_space c Hc).
Qed.

Lemma take_sign_digits s :
  string_forallb Py.is_digit s = true → Py.take_sign s = (false, s).
Proof.
  destruct s as [|c s]; [done|]. intros [Hc _]%andb_true_iff.
  destruct c as [[] [] [] [] [] [] [] []]; simpl in Hc; try discriminate;
    reflexivity.
Qed.

(** reading back what [format_06d] printed gives the number *)
Lemma int_format_06d z : Py.int (Py.format_06d z) = OK z.
Proof.
  unfold Py.int. destruct z as [|p|p]; unfold Py.format_06d.
  - rewrite strip_no_space by apply digits_no_space, zfill_all_digits.
    rewrite take_sign_digits by apply zfill_all_digits.
    by rewrite digits_value_zfill.
  - rewrite strip_no_space by apply digits_no_space, zfill_all_digits.
    rewrite take_sign_digits by apply zfill_all_digits.
    by rewrite digits_value_zfill.
  - rewrite strip_no_space.
    + simpl. by rewrite digits_value_zfill.
    + simpl. apply digits_no_space, zfill_all_digits.
Qed.

Lemma format_06d_inj z1 z2 : Py.format_06d z1 = Py.format_06d z2 → z1 = z2.
Proof.
  intros H. pose proof (int_format_06d z1) as H1.
  rewrite H, int_format_06d in H1. congruence.
Qed.

Lemma format_06d_chars z :
  string_forallb (λ c, Py.is_digit c || Ascii.eqb c "-") (Py.format_06d z) = true.
Proof.
  assert (∀ w n, string_forallb (λ c, Py.is_digit c || Ascii.eqb c "-")
                   (Py.zfill w (Py.digits n)) = true) as Hd.
  { intros w n. eapply string_forallb_impl, zfill_all_digits.
    by intros c ->. }
  destruct z; simpl; auto.
Qed.

Lemma format_06d_no_char (c : ascii) z :
  Py.is_digit c = false → c ≠ "-"%char → no_char c (Py.format_06d z) = true.
Proof.
  intros Hd Hm. eapply string_forallb_impl, format_06d_chars.
  intros d [Hdd|Hdm%Ascii.eqb_eq]%orb_true_iff; apply negb_true_iff.
  - destruct (Ascii.eqb_spec d c) as [->|]; congruence.
  - subst. by apply Ascii.eqb_neq.
Qed.

(** ** [sorted] *)

Lemma sorted_str_perm l : Py.sorted_str l ≡ₚ l.
Proof. apply merge_sort_Permutation. Qed.

Lemma sorted_str_sorted l : StronglySorted String.le (Py.sorted_str l).
Proof. apply StronglySorted_merge_sort; apply _. Qed.

Lemma sorted_str_unique l1 l2 : l1 ≡ₚ l2 → Py.sorted_str l1 = Py.sorted_str l2.
Proof.
  intros H. apply (Sorted_unique String.le).
  - apply Sorted_merge_sort; apply _.
  - apply Sorted_merge_sort; apply _.
  - by rewrite !sorted_str_perm.
Qed.

Lemma elem_of_sorted_str x l : x ∈ Py.sorted_str l ↔ x ∈ l.
Proof. by rewrite sorted_str_perm. Qed.

Lemma sorted_int_perm l : Py.sorted_int l ≡ₚ l.
Proof. apply merge_sort_Permutation. Qed.

Lemma sorted_int_sorted l : StronglySorted Z.le (Py.sorted_int l).
Proof. apply StronglySorted_merge_sort; apply _. Qed.

Lemma sorted_int_unique l1 l2 : l1 ≡ₚ l2 → Py.sorted_int l1 = Py.sorted_int l2.
Proof.
  intros H. apply (Sorted_unique Z.le).
  - apply Sorted_merge_sort; apply _.
  - apply Sorted_merge_sort; apply _.
  - by rewrite !sorted_int_perm.
Qed.

(** ** [glob] *)

Lemma glob_match_spec dir base p :
  glob_match dir base p = true ↔
  ∃ name, p = dir +:+ "/" +:+ name ∧ no_char "/" name = true
          ∧ fnmatch base name = true
          ∧ (is_hidden name = false ∨ is_hidden base = true).
Proof.
  unfold glob_match. split.
  - destruct (strip_prefix _ p) as [name|] eqn:Hp; [|done].
    apply strip_prefix_Some in Hp. rewrite string_app_assoc in Hp.
    intros [[Hs Hm]%andb_true_iff Hh%orb_true_iff]%andb_true_iff.
    exists name. repeat split; try done.
    destruct Hh as [Hh%negb_true_iff|Hh]; auto.
  - intros (name & -> & Hs & Hm & Hh).
    rewrite <-string_app_assoc, strip_prefix_app, Hs, Hm. simpl.
    destruct Hh as [->| ->]; [done|]. apply orb_true_r.
Qed.

Lemma elem_of_keys (m : gmap string file) p :
  p ∈ (map_to_list m).*1 ↔ is_Some (m !! p).
Proof.
  rewrite list_elem_of_fmap. split.
  - intros ([q x] & -> & H%elem_of_map_to_list). by exists x.
  - intros [x Hx]. exists (p, x). split; [done|]. by apply elem_of_map_to_list.
Qed.

Lemma elem_of_glob fs dir base p :
  no_char "/" base = true →
  p ∈ glob fs (dir +:+ "/" +:+ base)
  ↔ is_Some (files fs !! p) ∧ glob_match dir base p = true.
Proof.
  intros Hb. unfold glob. rewrite (os_path_split_join _ _ Hb).
  rewrite list_elem_of_filter, elem_of_keys. tauto.
Qed.

Lemma NoDup_glob fs pattern : NoDup (glob fs pattern).
Proof.
  unfold glob. destruct (os_path_split pattern).
  apply NoDup_filter, NoDup_fst_map_to_list.
Qed.

(** the result of [glob] is, up to order, a function of which matching
    paths exist *)
Lemma glob_perm fs1 fs2 dir base :
  no_char "/" base = true →
  (∀ p, glob_match dir base p = true →
        is_Some (files fs1 !! p) ↔ is_Some (files fs2 !! p)) →
  glob fs1 (dir +:+ "/" +:+ base) ≡ₚ glob fs2 (dir +:+ "/" +:+ base).
Proof.
  intros Hb Hagree. apply NoDup_Permutation; try apply NoDup_glob.
  intros p. rewrite !elem_of_glob by done. split; intros [Hp Hm]; split;
    try done; by apply (Hagree p Hm).
Qed.

(** ** Iteration discovery *)

Lemma get_iterations_unfold fs path :
  get_iterations fs path
  = its ← mapM iteration_of (glob fs (path +:+ "/" +:+ "*_n000.txt"));
    OK (Py.sorted_int its).
Proof. reflexivity. Qed.

Lemma iteration_of_in_dir dir name :
  no_char "/" name = true →
  iteration_of (dir +:+ "/" +:+ name)
  = field ← Py.item (Py.split "_" name) 1; Py.int field.
Proof.
  intros Hn. unfold iteration_of. change ("/" +:+ name) with (String "/" name).
  unfold Py.last_item. by rewrite (split_last _ _ _ Hn).
Qed.

Lemma iteration_of_shard0 dir it :
  iteration_of (dir +:+ "/" +:+ shard0_name it) = OK it.
Proof.
  assert (no_char "_" (Py.format_06d it) = true) as Hu
    by (by apply format_06d_no_char).
  assert (no_char "/" (Py.format_06d it) = true) as Hs
    by (by apply format_06d_no_char).
  rewrite iteration_of_in_dir.
  - unfold shard0_name. change ("points_" +:+ ?x) with ("points" +:+ String "_" x).
    rewrite split_app. change ("_n000.txt") with (String "_" "n000.txt").
    rewrite split_app, (split_no_sep _ _ Hu). simpl. apply int_format_06d.
  - unfold shard0_name. by rewrite !no_char_app, Hs.
Qed.

(** a path selected by the discovery pattern never fails on its indexing:
    the only possible exception is the [ValueError] of [int] *)
Lemma iteration_of_matched dir p e :
  glob_match dir "*_n000.txt" p = true →
  iteration_of p = Raise e → e = ValueError.
Proof.
  intros (name & -> & Hs & Hm & _)%glob_match_spec.
  apply (fnmatch_star_suffix "_n000.txt") in Hm as [stem ->]; [|done].
  rewrite iteration_of_in_dir by done.
  change ("_n000.txt") with (String "_" "n000.txt"). rewrite split_app.
  pose proof (split_nonempty "_" stem) as Hne.
  destruct (Py.split "_" stem) as [|w [|w' ws]]; [done|..]; simpl.
  - by intros [= <-].
  - unfold Py.int. destruct (Py.take_sign _). destruct (Py.digits_value _); [done|].
    by intros [= <-].
Qed.

Section mapM_permutation.
Context (f : string → result Z).

Lemma mapM_total_values l :
  Forall (λ p, ∃ z, f p = OK z) l → mapM f l = OK (value_of f <$> l).
Proof.
  induction 1 as [|p l [z Hp] _ IH]; [done|].
  rewrite mapM_result_cons, IH, fmap_cons. unfold value_of at 2. by rewrite Hp.
Qed.

Lemma mapM_OK_values l k : mapM f l = OK k → k = value_of f <$> l.
Proof.
  intros H. assert (Forall (λ p, ∃ z, f p = OK z) l) as Hall.
  { apply mapM_OK in H. apply Forall_forall. intros p Hp.
    apply list_elem_of_lookup in Hp as [i Hi].
    destruct (Forall2_lookup_l _ _ _ _ _ H Hi) as (z & _ & Hz). eauto. }
  rewrite (mapM_total_values _ Hall) in H. congruence.
Qed.

(** sorting afterwards makes the outcome independent of the listing order,
    provided only one kind of exception can occur *)
Lemma mapM_sorted_perm l1 l2 :
  l1 ≡ₚ l2 →
  (∀ p e, p ∈ l1 → f p = Raise e → e = ValueError) →
  (its ← mapM f l1; OK (Py.sorted_int its))
  = (its ← mapM f l2; OK (Py.sorted_int its)).
Proof.
  intros Hperm Herr.
  destruct (mapM f l1) as [k1|e1] eqn:H1; destruct (mapM f l2) as [k2|e2] eqn:H2;
    simpl.
  - apply mapM_OK_values in H1, H2. subst. f_equal.
    apply sorted_int_unique. by rewrite Hperm.
  - apply mapM_Raise in H2 as (p & Hp & Hf). rewrite <-Hperm in Hp.
    destruct (mapM_some_Raise f l1 p e2 Hp Hf) as [e' He']. congruence.
  - apply mapM_Raise in H1 as (p & Hp & Hf). rewrite Hperm in Hp.
    destruct (mapM_some_Raise f l2 p e1 Hp Hf) as [e' He']. congruence.
  - apply mapM_Raise in H1 as (p1 & Hp1 & Hf1).
    apply mapM_Raise in H2 as (p2 & Hp2 & Hf2). rewrite <-Hperm in Hp2.
    by rewrite (Herr _ _ Hp1 Hf1), (Herr _ _ Hp2 Hf2).
Qed.

End mapM_permutation.

Lemma glob_match_shard0 dir it :
  glob_match dir "*_n000.txt" (dir +:+ "/" +:+ shard0_name it) = true.
Proof.
  assert (no_char "/" (Py.format_06d it) = true) as Hs
    by (by apply format_06d_no_char).
  apply glob_match_spec. exists (shard0_name it). repeat split.
  - unfold shard0_name. by rewrite !no_char_app, Hs.
  - apply (fnmatch_star_suffix "_n000.txt"); [done|].
    exists ("points_" +:+ Py.format_06d it). unfold shard0_name.
    by rewrite string_app_assoc.
  - by left.
Qed.

(** C3, counterexample: the claim promises, for every source directory, a
    duplicate-free list of the iterations that have a file with suffix
    [_n000.txt].  With two such files whose second underscore-separated
    field reads ten, iteration 10 is returned twice. *)
Lemma get_iterations_duplicates :
  get_iterations fs_dup "plic" = OK [10; 10] ∧ ¬ NoDup [10; 10].
Proof.
  split; [vm_compute; reflexivity|].
  intros H. apply NoDup_cons in H as [H _]. apply H. by left.
Qed.

(** C3, as amended: in a source directory where every visible file whose
    name ends in [_n000.txt] is named [points_<iteration:06d>_n000.txt],
    [get_iterations] returns exactly the iterations that have their process-0
    shard, in ascending order and without duplicates (so the empty list when
    there is none). *)
Theorem get_iterations_conforming fs path :
  (∀ name, no_char "/" name = true → is_hidden name = false →
     is_Some (files fs !! (path +:+ "/" +:+ name)) →
     (∃ stem, name = stem +:+ "_n000.txt") → ∃ it, name = shard0_name it) →
  ∃ l, get_iterations fs path = OK l
       ∧ StronglySorted Z.le l ∧ NoDup l
       ∧ ∀ it, it ∈ l ↔ is_Some (files fs !! (path +:+ "/" +:+ shard0_name it)).
Proof.
  intros Hconf. rewrite get_iterations_unfold.
  set (g := glob fs (path +:+ "/" +:+ "*_n000.txt")).
  assert (∀ p, p ∈ g → ∃ it, p = path +:+ "/" +:+ shard0_name it) as Hshape.
  { intros p [Hp Hm]%elem_of_glob; [|done].
    apply glob_match_spec in Hm as (name & -> & Hs & Hm & Hh).
    destruct Hh as [Hh|Hh]; [|done].
    apply (fnmatch_star_suffix "_n000.txt") in Hm; [|done].
    destruct (Hconf name Hs Hh Hp Hm) as [it ->]. by exists it. }
  assert (Forall (λ p, ∃ z, iteration_of p = OK z) g) as Hall.
  { apply Forall_forall. intros p [it ->]%Hshape. exists it.
    apply iteration_of_shard0. }
  rewrite (mapM_total_values _ _ Hall). simpl.
  eexists. split; [done|]. split; [apply sorted_int_sorted|].
  assert (∀ p it, p = path +:+ "/" +:+ shard0_name it →
                  value_of iteration_of p = it) as Hval.
  { intros p it ->. unfold value_of. by rewrite iteration_of_shard0. }
  split.
  - rewrite sorted_int_perm. apply NoDup_fmap_2_strong; [|apply NoDup_glob].
    intros p q [ip Hp]%Hshape [iq Hq]%Hshape Heq.
    rewrite (Hval _ _ Hp), (Hval _ _ Hq) in Heq. congruence.
  - intros it. rewrite sorted_int_perm, list_elem_of_fmap. split.
    + intros (p & -> & Hp). destruct (Hshape _ Hp) as [ip ->].
      rewrite (Hval _ ip eq_refl). by apply elem_of_glob in Hp as [Hp _].
    + intros Hfile. exists (path +:+ "/" +:+ shard0_name it). split.
      * by rewrite (Hval _ it eq_refl).
      * apply elem_of_glob; [done|]. split; [done|apply glob_match_shard0].
Qed.

Lemma get_iterations_conforming_witness :
  ∃ l, get_iterations fs_example "plic" = OK l
       ∧ StronglySorted Z.le l ∧ NoDup l
       ∧ ∀ it, it ∈ l
               ↔ is_Some (files fs_example !! ("plic" +:+ "/" +:+ shard0_name it)).
Proof.
  apply (get_iterations_conforming fs_example "plic").
  intros name _ _ [c Hc] Hsuf. apply elem_of_list_to_map_2 in Hc.
  apply (fnmatch_star_suffix "_n000.txt") in Hsuf; [|done].
  repeat (apply elem_of_cons in Hc as [Hc|Hc]); [..|by apply elem_of_nil in Hc];
    injection Hc as Hc _; rewrite string_app_nil_l in Hc; subst name.
  - exists 120. reflexivity.
  - vm_compute in Hsuf. discriminate.
  - exists 130. reflexivity.
Defined.

(** C4, counterexample: [notes_n000.txt] does not follow the naming pattern,
    yet it is selected by the discovery glob and [int] fails on its second
    field [n000.txt]: the call raises instead of ignoring the file. *)
Lemma get_iterations_stray_file_raises :
  get_iterations fs_stray "plic" = Raise ValueError
  ∧ ¬ ∃ l, get_iterations fs_stray "plic" = OK l.
Proof.
  assert (get_iterations fs_stray "plic" = Raise ValueError) as H
    by (vm_compute; reflexivity).
  split; [done|]. intros [l Hl]. congruence.
Qed.

(** C4, as amended: [get_iterations] silently ignores every file whose name
    does not end in [_n000.txt] or starts with a dot: adding (or overwriting)
    such a file in the source directory changes neither its result nor
    whether it raises. *)
Theorem get_iterations_ignores fs path name c :
  (¬ ∃ stem, name = stem +:+ "_n000.txt") ∨ is_hidden name = true →
  get_iterations (write_file fs (path +:+ "/" +:+ name) c) path
  = get_iterations fs path.
Proof.
  intros Hname. rewrite !get_iterations_unfold.
  assert (glob_match path "*_n000.txt" (path +:+ "/" +:+ name) = false) as Hno.
  { apply not_true_is_false. intros (name' & Heq & _ & Hm & Hh)%glob_match_spec.
    do 2 apply String.app_inj in Heq. subst name'.
    apply (fnmatch_star_suffix "_n000.txt") in Hm; [|done].
    destruct Hname as [Hname|Hname]; [done|].
    destruct Hh as [Hh|Hh]; [congruence|]. vm_compute in Hh. discriminate. }
  apply mapM_sorted_perm.
  - apply glob_perm; [done|]. intros p Hp. simpl.
    rewrite lookup_insert_ne; [done|]. intros <-. congruence.
  - intros p e [_ Hp]%elem_of_glob; [|done]. by apply (iteration_of_matched path).
Qed.

Lemma get_iterations_ignores_witness :
  get_iterations
    (write_file fs_example ("plic" +:+ "/" +:+ "README.md") (TextFile ["notes"]))
    "plic"
  = get_iterations fs_example "plic".
Proof.
  apply (get_iterations_ignores fs_example "plic" "README.md").
  left. intros [stem Hstem].
  assert (fnmatch "*_n000.txt" "README.md" = true) as H
    by (apply (fnmatch_star_suffix "_n000.txt"); [done|by exists stem]).
  vm_compute in H. discriminate.
Defined.

(** ** Tables *)

Lemma values_filter (l : list (label * list cell)) :
  (filter (λ r, pd.has_nan r.2 = false) l).*2
  = filter (λ r, pd.has_nan r = false) (l.*2).
Proof.
  induction l as [|r l IH]; [done|]. rewrite fmap_cons.
  destruct (pd.has_nan r.2) eqn:Hr.
  - rewrite !filter_cons_False by (by rewrite Hr). done.
  - rewrite !filter_cons_True by done. by rewrite fmap_cons, IH.
Qed.

Lemma values_join (ls : list (list (label * list cell))) :
  (mjoin ls).*2 = mjoin (fmap snd <$> ls).
Proof.
  induction ls as [|l ls IH]; [done|]. simpl. by rewrite fmap_app, IH.
Qed.

Lemma values_dropna df :
  values (pd.dropna df) = filter (λ r, pd.has_nan r = false) (values df).
Proof.
  unfold values, pd.dropna. simpl. apply values_filter.
Qed.

Lemma values_reset_index df : values (pd.reset_index df) = values df.
Proof.
  unfold values, pd.reset_index. simpl. rewrite fmap_imap.
  rewrite (imap_ext _ (λ _, snd)) by done. apply imap_const.
Qed.

Lemma index_reset_index df :
  index (pd.reset_index df) = Ix <$> seq 0 (length (rows df)).
Proof.
  unfold index, pd.reset_index. simpl. rewrite fmap_imap.
  rewrite (imap_ext _ (λ i _, Ix i)) by done. apply imap_seq_0.
Qed.

Lemma length_rows_reset_index df :
  length (rows (pd.reset_index df)) = length (rows df).
Proof. unfold pd.reset_index. simpl. apply length_imap. Qed.

Lemma concat_cons f frames :
  pd.concat (f :: frames)
  = OK {| columns := columns f; dtype := dtype f;
          rows := mjoin (rows <$> f :: frames) |}.
Proof. reflexivity. Qed.

(** ** The tokenizer *)

(** without quote characters the fields of a line are its parts between
    single spaces *)
Lemma tokenize_line_plain s st cur rec :
  no_char pd.quotechar s = true →
  st = pd.StartField ∨ st = pd.InField →
  ∃ st' cur' rec',
    pd.tokenize_line st cur rec s = (st', cur', rec')
    ∧ (st' = pd.StartField ∨ st' = pd.InField)
    ∧ rec' ++ [cur'] = rec ++ match Py.split " " s with
                              | w :: ws => (cur +:+ w) :: ws
                              | [] => [cur]
                              end.
Proof.
  revert st cur rec. induction s as [|c s IH]; intros st cur rec Hs Hst.
  - exists st, cur, rec. simpl. by rewrite string_app_nil_r.
  - simpl in Hs. apply andb_true_iff in Hs as [Hc Hs].
    apply negb_true_iff in Hc.
    assert (pd.tokenize_line st cur rec (String c s)
            = if Ascii.eqb c " "
              then pd.tokenize_line pd.StartField EmptyString (rec ++ [cur]) s
              else pd.tokenize_line pd.InField (cur +:+ String c EmptyString) rec s)
      as ->.
    { destruct Hst as [-> | ->]; simpl; by rewrite ?Hc. }
    simpl. destruct (Ascii.eqb c " ").
    + destruct (IH pd.StartField EmptyString (rec ++ [cur]) Hs) as
        (st' & cur' & rec' & -> & Hst' & Heq); [by left|].
      exists st', cur', rec'. split; [done|]. split; [done|].
      rewrite Heq, <-app_assoc, string_app_nil_r. simpl.
      pose proof (split_nonempty " " s). by destruct (Py.split " " s).
    + destruct (IH pd.InField (cur +:+ String c EmptyString) rec Hs) as
        (st' & cur' & rec' & -> & Hst' & Heq); [by right|].
      exists st', cur', rec'. split; [done|]. split; [done|].
      rewrite Heq. pose proof (split_nonempty " " s).
      destruct (Py.split " " s); [done|]. by rewrite string_app_assoc.
Qed.

Lemma tokenize_plain lines :
  Forall (λ l, no_char pd.quotechar l = true) lines →
  pd.tokenize None lines
  = (Py.split " " <$> filter (λ l, pd.blank_line l = false) lines, false).
Proof.
  induction 1 as [|l lines Hl _ IH]; [done|]. simpl.
  destruct (pd.blank_line l) eqn:Hb.
  - rewrite filter_cons_False by (by rewrite Hb). exact IH.
  - rewrite filter_cons_True by done.
    destruct (tokenize_line_plain l pd.StartField EmptyString [] Hl)
      as (st' & cur' & rec' & -> & Hst' & Heq); [by left|].
    rewrite IH. simpl in Heq. pose proof (split_nonempty " " l) as Hne.
    destruct (Py.split " " l) as [|w ws] eqn:Hsplit; [done|].
    rewrite string_app_nil_l, <-Hsplit in Heq.
    destruct Hst' as [-> | ->]; simpl; by rewrite Heq.
Qed.

Lemma records_plain lines :
  Forall (λ l, no_char pd.quotechar l = true) lines →
  pd.records lines = Py.split " " <$> filter (λ l, pd.blank_line l = false) lines
  ∧ pd.unterminated lines = false.
Proof.
  intros H. unfold pd.records, pd.unterminated. by rewrite (tokenize_plain _ H).
Qed.

(** *** Fields that convert hold no quote character *)

Lemma lstrip_forallb f s :
  (∀ c, Ascii.is_space c = true → f c = true) →
  string_forallb f (Py.lstrip s) = true → string_forallb f s = true.
Proof.
  intros Hf. induction s as [|c s IH]; simpl; [done|].
  destruct (Ascii.is_space c) eqn:Hc.
  - intros H. by rewrite (Hf c Hc), (IH H).
  - done.
Qed.

Lemma string_forallb_rev f s :
  string_forallb f (String.rev s) = string_forallb f s.
Proof. unfold String.rev. rewrite string_forallb_rev_app. simpl. apply andb_true_r. Qed.

Lemma strip_forallb f s :
  (∀ c, Ascii.is_space c = true → f c = true) →
  string_forallb f (Py.strip s) = true → string_forallb f s = true.
Proof.
  intros Hf H. unfold Py.strip in H. rewrite string_forallb_rev in H.
  apply (lstrip_forallb f _ Hf) in H. rewrite string_forallb_rev in H.
  by apply (lstrip_forallb f _ Hf) in H.
Qed.

Lemma take_sign_forallb f s :
  f "-"%char = true → f "+"%char = true →
  string_forallb f (Py.take_sign s).2 = true → string_forallb f s = true.
Proof.
  intros Hm Hp. destruct s as [|c s]; [done|].
  destruct (Ascii.eqb_spec c "-") as [->|Hc1]; [simpl; by rewrite Hm|].
  destruct (Ascii.eqb_spec c "+") as [->|Hc2]; [simpl; by rewrite Hp|].
  assert (Py.take_sign (String c s) = (false, String c s)) as ->; [|done].
  destruct c as [[] [] [] [] [] [] [] []]; done.
Qed.

Lemma span_digits_spec s :
  s = (pd.span_digits s).1 +:+ (pd.span_digits s).2
  ∧ string_forallb Py.is_digit (pd.span_digits s).1 = true.
Proof.
  induction s as [|c s [IH1 IH2]]; simpl; [done|].
  destruct (Py.is_digit c) eqn:Hc; [|done].
  destruct (pd.span_digits s) as [d r]. simpl in *.
  rewrite string_app_cons, <-IH1. simpl. by rewrite Hc.
Qed.

Lemma digit_literal_char c : Py.is_digit c = true → literal_char c = true.
Proof. destruct c as [[] [] [] [] [] [] [] []]; vm_compute; congruence. Qed.

Lemma space_literal_char c : Ascii.is_space c = true → literal_char c = true.
Proof. destruct c as [[] [] [] [] [] [] [] []]; vm_compute; congruence. Qed.

Lemma span_digits_literal s :
  string_forallb literal_char (pd.span_digits s).2 = true →
  string_forallb literal_char s = true.
Proof.
  intros H. destruct (span_digits_spec s) as [Hs Hd]. rewrite Hs.
  rewrite string_forallb_app, H, andb_true_r.
  eapply string_forallb_impl; [|exact Hd]. apply digit_literal_char.
Qed.

Lemma exponent_literal s e :
  pd.exponent_of s = Some e → string_forallb literal_char s = true.
Proof.
  destruct s as [|c s]; [done|]. simpl.
  destruct (Ascii.eqb c "e" || Ascii.eqb c "E") eqn:Hc; [|done].
  destruct (Py.take_sign s) as [neg r1] eqn:Hsign.
  destruct (pd.span_digits r1) as [ds r2] eqn:Hspan.
  destruct ds as [|d ds]; [done|]. destruct r2; [|done]. intros _.
  apply andb_true_iff. split.
  - apply orb_true_iff in Hc as [->%Ascii.eqb_eq| ->%Ascii.eqb_eq]; done.
  - apply take_sign_forallb; [done..|]. rewrite Hsign. simpl.
    apply span_digits_literal. by rewrite Hspan.
Qed.

Lemma fraction_literal s2 fp s3 :
  match s2 with
  | String "." r => pd.span_digits r
  | _ => (EmptyString, s2)
  end = (fp, s3) →
  string_forallb literal_char s3 = true →
  string_forallb literal_char s2 = true.
Proof.
  destruct s2 as [|c r]; [by intros [= <- <-]|].
  destruct (Ascii.eqb_spec c ".") as [->|Hc].
  - intros Hspan H3. simpl. apply span_digits_literal. by rewrite Hspan.
  - assert (match String c r with
            | String "." r0 => pd.span_digits r0
            | _ => (EmptyString, String c r)
            end = (EmptyString, String c r)) as ->
      by (destruct c as [[] [] [] [] [] [] [] []]; done).
    by intros [= <- <-].
Qed.

Lemma decimal_literal_chars s c :
  pd.decimal_literal s = Some c → string_forallb literal_char s = true.
Proof.
  unfold pd.decimal_literal. intros H.
  apply strip_forallb; [apply space_literal_char|].
  destruct (Py.take_sign (Py.strip s)) as [neg s1] eqn:Hsign.
  apply take_sign_forallb; [done..|]. rewrite Hsign. simpl.
  destruct (pd.span_digits s1) as [ip s2] eqn:Hip.
  apply span_digits_literal. rewrite Hip. simpl.
  destruct (match s2 with
            | String "." r => pd.span_digits r
            | _ => (EmptyString, s2)
            end) as [fp s3] eqn:Hfp.
  apply (fraction_literal _ _ _ Hfp).
  destruct (ip +:+ fp); [done|].
  destruct (pd.exponent_of s3) as [e|] eqn:He; [|done].
  by apply exponent_literal in He.
Qed.

Lemma lower_literal_char c : literal_char (pd.lower c) = true → literal_char c = true.
Proof. destruct c as [[] [] [] [] [] [] [] []]; vm_compute; congruence. Qed.

Lemma lower_string_literal s :
  string_forallb literal_char (pd.lower_string s) = true →
  string_forallb literal_char s = true.
Proof.
  induction s as [|c s IH]; simpl; [done|].
  intros [Hc Hs]%andb_true_iff. by rewrite (lower_literal_char _ Hc), (IH Hs).
Qed.

Lemma infinity_literal_chars s c :
  pd.infinity_literal s = Some c → string_forallb literal_char s = true.
Proof.
  unfold pd.infinity_literal. intros H. apply lower_string_literal.
  destruct (Py.take_sign (pd.lower_string s)) as [neg r] eqn:Hsign.
  apply take_sign_forallb; [done..|]. rewrite Hsign. simpl.
  case_bool_decide as Hr; [|done]. by destruct Hr as [-> | ->].
Qed.

(** a field that converts holds no quote character *)
Lemma converts_no_quote tok :
  converts tok = true → no_char pd.quotechar tok = true.
Proof.
  unfold converts, pd.to_float. change (no_char pd.quotechar tok)
    with (string_forallb literal_char tok).
  case_bool_decide as Hna.
  - intros _. revert tok Hna. apply Forall_forall. unfold pd.na_values.
    repeat (apply Forall_cons; split; [reflexivity|]). apply Forall_nil_2.
  - destruct (pd.decimal_literal tok) as [c|] eqn:Hd;
      [intros _; by apply decimal_literal_chars in Hd|].
    destruct (pd.infinity_literal tok) as [c|] eqn:Hi; [|done].
    intros _. by apply infinity_literal_chars in Hi.
Qed.

Lemma split_no_char q sep s :
  q ≠ sep →
  Forall (λ w, no_char q w = true) (Py.split sep s) → no_char q s = true.
Proof.
  intros Hq. induction s as [|c s IH]; [done|]. intros H. simpl in H.
  change (negb (Ascii.eqb c q) && no_char q s = true).
  destruct (Ascii.eqb_spec c sep) as [->|Hc].
  - apply Forall_cons in H as [_ H]. rewrite (IH H), andb_true_r.
    apply negb_true_iff, Ascii.eqb_neq. congruence.
  - pose proof (split_nonempty sep s).
    destruct (Py.split sep s) as [|w ws]; [done|].
    apply Forall_cons in H as [Hw Hws].
    change (negb (Ascii.eqb c q) && no_char q w = true) in Hw.
    apply andb_true_iff in Hw as [-> Hw]. simpl. apply IH. by constructor.
Qed.

Lemma blank_line_no_quote l : pd.blank_line l = true → no_char pd.quotechar l = true.
Proof. apply string_forallb_impl. by intros c ->%Ascii.eqb_eq. Qed.

Lemma short_line_no_quote n l : short_line n l → no_char pd.quotechar l = true.
Proof.
  intros [_ Hconv]. apply (split_no_char _ " "); [done|].
  eapply Forall_impl; [exact Hconv|]. apply converts_no_quote.
Qed.

(** ** Reading one shard *)

Lemma read_csv_inv fs p names t :
  pd.read_csv fs p names = OK t →
  ∃ lines table,
    files fs !! p = Some (TextFile lines)
    ∧ mapM (λ r, mapM pd.to_float
                   (resize (table_width (pd.records lines) (length names))
                           EmptyString r))
           (pd.records lines) = OK table
    ∧ t = {| columns := names; dtype := float32;
             rows := imap (λ i r,
                       (if decide ((table_width (pd.records lines) (length names)
                                    - length names)%nat = 0%nat)
                        then Ix i
                        else Key (take (table_width (pd.records lines)
                                          (length names) - length names) r),
                        drop (table_width (pd.records lines) (length names)
                              - length names) r)) table |}.
Proof.
  unfold pd.read_csv, open_text.
  destruct (files fs !! p) as [[lines|df]|]; [|done..]. simpl.
  destruct (pd.unterminated lines); [done|].
  fold (table_width (pd.records lines) (length names)).
  case_bool_decide; [|done].
  destruct (mapM _ (pd.records lines)) as [table|e] eqn:Htable; [|done].
  simpl. intros [= <-]. by exists lines, table.
Qed.

(** what [read_csv] does with a text file *)
Lemma read_csv_text fs p names lines :
  files fs !! p = Some (TextFile lines) →
  pd.read_csv fs p names
  = if pd.unterminated lines then Raise ValueError
    else if bool_decide (Forall (λ r, (length r
                                       ≤ table_width (pd.records lines)
                                                     (length names))%nat)
                                (pd.records lines))
         then table ← mapM (λ r, mapM pd.to_float
                              (resize (table_width (pd.records lines)
                                                   (length names))
                                      EmptyString r))
                           (pd.records lines);
              OK {| columns := names; dtype := float32;
                    rows := imap (λ i r,
                      (if decide ((table_width (pd.records lines) (length names)
                                   - length names)%nat = 0%nat)
                       then Ix i
                       else Key (take (table_width (pd.records lines)
                                         (length names) - length names) r),
                       drop (table_width (pd.records lines) (length names)
                             - length names) r)) table |}
         else Raise ValueError.
Proof. intros Hfile. unfold pd.read_csv, open_text. by rewrite Hfile. Qed.

Lemma read_csv_columns fs p names t :
  pd.read_csv fs p names = OK t → columns t = names ∧ dtype t = float32.
Proof. intros (lines & table & _ & _ & ->)%read_csv_inv. done. Qed.


(** ** Assembling one iteration *)

Lemma assemble_shape_unfold fs path it flag :
  assemble_shape fs path it flag
  = points ← mapM (λ file, pd.read_csv fs file (schema flag))
                  (shard_files fs path it);
    all_points ← pd.concat points;
    OK (pd.reset_index (pd.dropna all_points)).
Proof.
  unfold assemble_shape, shard_files, shard_prefix.
  replace ((path +:+ "/points_" +:+ Py.format_06d it +:+ "_n") +:+ "*")
    with (path +:+ "/" +:+ ("points_" +:+ Py.format_06d it +:+ "_n") +:+ "*");
    [by destruct flag|].
  by rewrite !string_app_assoc.
Qed.

Lemma shard_prefix_no_star it : no_char "*" (shard_prefix it) = true.
Proof.
  unfold shard_prefix. rewrite !no_char_app.
  by rewrite (format_06d_no_char "*" it).
Qed.

Lemma shard_pattern_no_slash it : no_char "/" (shard_prefix it +:+ "*") = true.
Proof.
  unfold shard_prefix. rewrite !no_char_app.
  by rewrite (format_06d_no_char "/" it).
Qed.

Lemma is_hidden_shard it rest : is_hidden (shard_prefix it +:+ rest) = false.
Proof. reflexivity. Qed.

(** selection is by prefix alone *)
Lemma elem_of_shard_files fs path it p :
  p ∈ shard_files fs path it
  ↔ ∃ rest, p = path +:+ "/" +:+ shard_prefix it +:+ rest
            ∧ no_char "/" rest = true ∧ is_Some (files fs !! p).
Proof.
  unfold shard_files.
  rewrite elem_of_sorted_str, elem_of_glob by apply shard_pattern_no_slash.
  rewrite glob_match_spec. split.
  - intros (Hp & name & -> & Hs & Hm & _).
    apply fnmatch_prefix_star in Hm as [rest ->]; [|apply shard_prefix_no_star].
    exists rest. rewrite no_char_app in Hs. apply andb_true_iff in Hs as [_ Hs].
    done.
  - intros (rest & -> & Hs & Hp). split; [done|].
    exists (shard_prefix it +:+ rest). repeat split.
    + rewrite no_char_app, Hs, andb_true_r.
      pose proof (shard_pattern_no_slash it) as H. rewrite no_char_app in H.
      by apply andb_true_iff in H as [H _].
    + apply fnmatch_prefix_star; [apply shard_prefix_no_star|by exists rest].
    + left. apply is_hidden_shard.
Qed.

Lemma shard_files_sorted fs path it :
  StronglySorted String.le (shard_files fs path it).
Proof. apply sorted_str_sorted. Qed.

(** C1, counterexample: on a file system without the source directory the
    iteration has no shard; the claim promises an empty table, the function
    raises the [ValueError] of [pd.concat] on an empty list. *)
Lemma assemble_shape_empty_input_raises :
  glob fs_empty "plic/points_000120_n*" = []
  ∧ assemble_shape fs_empty "plic" 120 true = Raise ValueError
  ∧ ¬ ∃ t, assemble_shape fs_empty "plic" 120 true = OK t ∧ rows t = [].
Proof.
  assert (assemble_shape fs_empty "plic" 120 true = Raise ValueError) as H
    by (vm_compute; reflexivity).
  split; [vm_compute; reflexivity|]. split; [done|].
  intros (t & Ht & _). congruence.
Qed.

Lemma shard_files_nil fs path it :
  (∀ rest, files fs !! (path +:+ "/" +:+ shard_prefix it +:+ rest) = None) →
  shard_files fs path it = [].
Proof.
  intros Hnone. destruct (shard_files fs path it) as [|p l] eqn:Hl; [done|].
  assert (p ∈ shard_files fs path it) as Hp by (rewrite Hl; by left).
  apply elem_of_shard_files in Hp as (rest & -> & _ & [c Hc]).
  rewrite Hnone in Hc. done.
Qed.

(** C1, as amended: when the source directory is missing, or holds no file
    whose name starts with the iteration's prefix, [assemble_shape] returns
    no table: it raises [ValueError] ([pd.concat] refuses an empty list). *)
Theorem assemble_shape_no_shards fs path it flag :
  (∀ rest, files fs !! (path +:+ "/" +:+ shard_prefix it +:+ rest) = None) →
  assemble_shape fs path it flag = Raise ValueError.
Proof.
  intros Hnone. rewrite assemble_shape_unfold, (shard_files_nil _ _ _ Hnone).
  reflexivity.
Qed.

Lemma assemble_shape_no_shards_witness :
  assemble_shape fs_empty "plic" 120 false = Raise ValueError.
Proof.
  apply (assemble_shape_no_shards fs_empty "plic" 120 false).
  intros rest. apply lookup_empty.
Defined.

(** what [assemble_shape] computes once every selected file has been read *)
Lemma assemble_shape_frames fs path it flag frames :
  shard_files fs path it ≠ [] →
  Forall2 (λ f t, pd.read_csv fs f (schema flag) = OK t)
          (shard_files fs path it) frames →
  assemble_shape fs path it flag
  = OK (pd.reset_index (pd.dropna
         {| columns := schema flag; dtype := float32;
            rows := mjoin (rows <$> frames) |})).
Proof.
  intros Hne Hall. rewrite assemble_shape_unfold.
  pose proof Hall as Hm. apply mapM_OK in Hm. rewrite Hm. simpl.
  destruct Hall as [|f t fl frames' Hf _]; [done|].
  rewrite concat_cons. simpl.
  by destruct (read_csv_columns _ _ _ _ Hf) as [-> ->].
Qed.

Lemma assemble_shape_raises fs path it flag f e :
  f ∈ shard_files fs path it →
  pd.read_csv fs f (schema flag) = Raise e →
  ∃ e', assemble_shape fs path it flag = Raise e'.
Proof.
  intros Hf He. rewrite assemble_shape_unfold.
  destruct (mapM_some_Raise (λ file, pd.read_csv fs file (schema flag))
              _ f e Hf He) as [e' ->].
  by exists e'.
Qed.

Lemma assemble_shape_OK_inv fs path it flag T :
  assemble_shape fs path it flag = OK T →
  ∃ frames,
    shard_files fs path it ≠ []
    ∧ Forall2 (λ f t, pd.read_csv fs f (schema flag) = OK t)
              (shard_files fs path it) frames.
Proof.
  rewrite assemble_shape_unfold.
  destruct (mapM _ (shard_files fs path it)) as [frames|e] eqn:Hm; [|done].
  apply mapM_OK in Hm. intros HT. exists frames. split; [|done].
  intros Hnil. rewrite Hnil in Hm. inversion Hm; subst. done.
Qed.

Lemma values_imap_drop (lead : nat) (lab : nat → list cell → label)
    (table : list (list cell)) :
  (imap (λ i r, (lab i r, drop lead r)) table).*2 = drop lead <$> table.
Proof. rewrite fmap_imap. apply imap_const. Qed.

Lemma read_csv_in_order fs p names t :
  pd.read_csv fs p names = OK t →
  ∃ lines, files fs !! p = Some (TextFile lines)
           ∧ Forall2 row_of_record (pd.records lines) (values t).
Proof.
  intros (lines & table & Hfile & Htable & ->)%read_csv_inv.
  exists lines. split; [done|]. unfold values. simpl.
  rewrite values_imap_drop. apply Forall2_fmap_r. apply mapM_OK in Htable.
  eapply Forall2_impl; [exact Htable|]. intros rec row Hrow.
  exists (take (table_width (pd.records lines) (length names) - length names) row).
  rewrite <-length_app, take_drop.
  apply mapM_OK_length in Hrow as Hlen. rewrite length_resize in Hlen.
  by rewrite Hlen.
Qed.

(** C6: when the iteration has at least one shard file and each of them is
    read successfully, the files are taken in ascending lexicographic order
    of their names, each frame lists the records of its file in file order,
    and the returned table is the concatenation of the frames in that order
    (rows with a missing value removed), labelled 0 .. N-1. *)
Theorem assemble_shape_order fs path it flag frames :
  shard_files fs path it ≠ [] →
  Forall2 (λ f t, pd.read_csv fs f (schema flag) = OK t)
          (shard_files fs path it) frames →
  StronglySorted String.le (shard_files fs path it)
  ∧ shard_files fs path it
    ≡ₚ glob fs ((path +:+ "/points_" +:+ Py.format_06d it +:+ "_n") +:+ "*")
  ∧ Forall2 (λ f t, ∃ lines, files fs !! f = Some (TextFile lines)
                     ∧ Forall2 row_of_record (pd.records lines) (values t))
            (shard_files fs path it) frames
  ∧ ∃ T, assemble_shape fs path it flag = OK T
         ∧ values T
           = filter (λ r, pd.has_nan r = false) (mjoin (values <$> frames))
         ∧ index T = Ix <$> seq 0 (length (rows T)).
Proof.
  intros Hne Hall. split; [apply shard_files_sorted|]. split.
  { unfold shard_files. rewrite sorted_str_perm.
    replace ((path +:+ "/points_" +:+ Py.format_06d it +:+ "_n") +:+ "*")
      with (path +:+ "/" +:+ shard_prefix it +:+ "*"); [done|].
    unfold shard_prefix. by rewrite !string_app_assoc. }
  split.
  { eapply Forall2_impl; [exact Hall|]. intros f t Hf.
    by apply read_csv_in_order in Hf. }
  eexists. split; [by apply assemble_shape_frames|]. split.
  - rewrite values_reset_index, values_dropna. unfold values at 1. simpl.
    rewrite values_join. do 2 f_equal. rewrite <-list_fmap_compose.
    by apply list_fmap_ext.
  - by rewrite index_reset_index, length_rows_reset_index.
Qed.

Lemma assemble_shape_order_witness :
  ∃ T, assemble_shape fs_example "plic" 120 true = OK T
       ∧ values T = [[Dec 1 (-1); Dec 2 (-1)]; [Dec 3 (-1); Dec 4 (-1)];
                     [Dec 5 (-1); Dec 6 (-1)]; [Dec 7 (-1); Dec 8 (-1)]]
       ∧ index T = [Ix 0; Ix 1; Ix 2; Ix 3].
Proof.
  assert (shard_files fs_example "plic" 120
          = ["plic/points_000120_n000.txt"; "plic/points_000120_n001.txt"])
    as Hfiles by (vm_compute; reflexivity).
  destruct (assemble_shape_order fs_example "plic" 120 true
    [ {| columns := ["px"; "py"]; dtype := float32;
         rows := [(Ix 0, [Dec 1 (-1); Dec 2 (-1)]);
                  (Ix 1, [Dec 3 (-1); Dec 4 (-1)]);
                  (Ix 2, [Dec 5 (-1); Dec 6 (-1)])] |};
      {| columns := ["px"; "py"]; dtype := float32;
         rows := [(Ix 0, [Dec 7 (-1); Dec 8 (-1)])] |} ])
    as (_ & _ & _ & T & HT & Hv & Hi).
  - rewrite Hfiles. discriminate.
  - rewrite Hfiles.
    constructor; [vm_compute; reflexivity|].
    constructor; [vm_compute; reflexivity|]. constructor.
  - exists T. split; [exact HT|]. split; [exact Hv|].
    rewrite Hi. vm_compute in HT. injection HT as <-. reflexivity.
Defined.

(** ** Lines, fields and rows *)

Section mapM_values.
Context {A B : Type} (f : A → result B) (g : A → B).

Lemma mapM_fmap_OK l :
  Forall (λ x, f x = OK (g x)) l → mapM f l = OK (g <$> l).
Proof.
  induction 1 as [|x l Hx _ IH]; [done|].
  by rewrite mapM_result_cons, Hx, IH.
Qed.

End mapM_values.


Lemma converts_cell_of tok : converts tok = true → pd.to_float tok = OK (cell_of tok).
Proof. unfold converts, cell_of. by destruct (pd.to_float tok). Qed.

Lemma numeric_converts tok : numeric tok = true → converts tok = true.
Proof. unfold numeric, converts. by destruct (pd.to_float tok). Qed.

Lemma numeric_cell_of tok : numeric tok = true ↔ converts tok = true ∧ cell_of tok ≠ NaN.
Proof.
  unfold numeric, converts, cell_of.
  destruct (pd.to_float tok) as [[]|]; split; try done; by intros [? ?].
Qed.

Lemma convert_record n r :
  Forall (λ tok, converts tok = true) r →
  mapM pd.to_float (resize n EmptyString r)
  = OK (cell_of <$> resize n EmptyString r).
Proof.
  intros Hr. apply mapM_fmap_OK. apply Forall_resize; [done|].
  eapply Forall_impl; [exact Hr|]. intros tok. apply converts_cell_of.
Qed.


Lemma records_width n recs :
  Forall (λ r : list string, (length r ≤ n)%nat) recs → table_width recs n = n.
Proof. unfold table_width. destruct 1; lia. Qed.

(** the frame of a file whose records have at most as many fields as there
    are columns, all of which convert *)
Lemma read_csv_records fs p names lines :
  files fs !! p = Some (TextFile lines) →
  pd.unterminated lines = false →
  Forall (short_record (length names)) (pd.records lines) →
  pd.read_csv fs p names
  = OK {| columns := names; dtype := float32;
          rows := imap (λ i r, (Ix i, row_of_fields (length names) r))
                       (pd.records lines) |}.
Proof.
  intros Hfile Hclosed Hrecs. rewrite (read_csv_text _ _ _ _ Hfile), Hclosed.
  assert (Forall (λ r : list string, (length r ≤ length names)%nat)
                 (pd.records lines)) as Hwidth
    by (eapply Forall_impl; [exact Hrecs|]; by intros r [? _]).
  rewrite (records_width _ _ Hwidth), bool_decide_eq_true_2 by done.
  rewrite (mapM_fmap_OK _ (row_of_fields (length names))).
  - simpl. f_equal. f_equal. rewrite !imap_fmap.
    apply imap_ext. intros i r _. simpl.
    rewrite Nat.sub_diag. by rewrite decide_True.
  - eapply Forall_impl; [exact Hrecs|]. intros r [_ Hconv].
    by apply convert_record.
Qed.

(** lines without a quote character: the records are the non-blank lines,
    split at every space *)
Lemma short_lines_plain n lines :
  Forall (λ l, pd.blank_line l = false → short_line n l) lines →
  Forall (λ l, no_char pd.quotechar l = true) lines.
Proof.
  intros H. eapply Forall_impl; [exact H|].
  intros l Hl. simpl in Hl. destruct (pd.blank_line l) eqn:Hb.
  - by apply blank_line_no_quote.
  - by apply (short_line_no_quote n), Hl.
Qed.

Lemma read_csv_short fs p names lines :
  files fs !! p = Some (TextFile lines) →
  Forall (λ l, pd.blank_line l = false → short_line (length names) l) lines →
  pd.read_csv fs p names
  = OK {| columns := names; dtype := float32;
          rows := imap (λ i l, (Ix i, row_of_line (length names) l))
                       (filter (λ l, pd.blank_line l = false) lines) |}.
Proof.
  intros Hfile Hlines.
  destruct (records_plain lines (short_lines_plain _ _ Hlines)) as [Hrecs Hclosed].
  rewrite (read_csv_records _ _ _ _ Hfile Hclosed).
  - rewrite Hrecs. f_equal. f_equal. by rewrite imap_fmap.
  - rewrite Hrecs. apply Forall_fmap, Forall_forall.
    intros l [Hb Hl]%list_elem_of_filter.
    rewrite Forall_forall in Hlines. by apply Hlines.
Qed.

Lemma blank_line_strip l : pd.blank_line l = true → Py.strip l = "".
Proof.
  intros Hb. assert (Py.lstrip l = "") as Hl.
  { induction l as [|c l IH]; [done|]. simpl in *.
    apply andb_true_iff in Hb as [->%Ascii.eqb_eq Hb]. simpl. auto. }
  unfold Py.strip. by rewrite Hl.
Qed.

Lemma blank_line_not_numeric l : pd.blank_line l = true → numeric l = false.
Proof.
  intros Hb. destruct l as [|c l]; [done|].
  assert (pd.to_float (String c l) = Raise ValueError) as Hraise.
  { unfold pd.to_float. rewrite bool_decide_eq_false_2.
    - unfold pd.decimal_literal. rewrite (blank_line_strip _ Hb). simpl.
      apply andb_true_iff in Hb as [->%Ascii.eqb_eq _].
      unfold pd.infinity_literal. simpl. reflexivity.
    - intros Hin. unfold pd.na_values in Hin.
      repeat (apply elem_of_cons in Hin as [Hin|Hin]);
        try (rewrite Hin in Hb; vm_compute in Hb; discriminate).
      by apply elem_of_nil in Hin. }
  unfold numeric. by rewrite Hraise.
Qed.

Lemma blank_line_no_space l : pd.blank_line l = true → no_char " " l = true.
Proof.
  apply string_forallb_impl. intros c ->%Ascii.eqb_eq. reflexivity.
Qed.

(** a point line is never skipped as blank *)
Lemma point_line_not_blank n l : point_line n l = true → pd.blank_line l = false.
Proof.
  unfold point_line. intros [_ Hnum]%bool_decide_eq_true.
  destruct (pd.blank_line l) eqn:Hb; [|done].
  rewrite (split_no_sep _ _ (blank_line_no_space _ Hb)) in Hnum.
  apply Forall_inv in Hnum. by rewrite (blank_line_not_numeric _ Hb) in Hnum.
Qed.

Lemma point_line_nonempty n l : point_line n l = true → l ≠ EmptyString.
Proof.
  intros H ->. apply bool_decide_eq_true in H as [_ H].
  apply Forall_inv in H. vm_compute in H. discriminate.
Qed.

Lemma point_line_short n l : point_line n l = true → short_line n l.
Proof.
  unfold point_line. intros [Hlen Hnum]%bool_decide_eq_true. split; [lia|].
  eapply Forall_impl; [exact Hnum|]. apply numeric_converts.
Qed.

Lemma point_line_row n l : point_line n l = true → row_of_line n l = point_of_line l.
Proof.
  unfold point_line. intros [Hlen _]%bool_decide_eq_true.
  unfold row_of_line, point_of_line. by rewrite resize_all_alt.
Qed.

(** a row has a missing value exactly when its record is not complete *)
Lemma has_nan_fields n r :
  short_record n r → pd.has_nan (row_of_fields n r) = negb (point_record n r).
Proof.
  intros [Hlen Hconv]. unfold pd.has_nan, row_of_fields, point_record.
  rewrite resize_ge, fmap_app, fmap_replicate by done.
  apply eq_true_iff_eq. rewrite negb_true_iff, bool_decide_eq_true,
    bool_decide_eq_false, elem_of_app, elem_of_replicate, list_elem_of_fmap.
  split.
  - intros [(tok & Htok & Hin)|[_ Hpad]] [Hn Hnum].
    + rewrite Forall_forall in Hnum.
      apply Hnum, numeric_cell_of in Hin as [_ Hin]. congruence.
    + lia.
  - intros Hnot. destruct (decide (length r = n)) as [Heq|Hne].
    + left. apply not_and_l in Hnot as [?|Hnum]; [done|].
      apply not_Forall_Exists in Hnum; [|apply _].
      apply Exists_exists in Hnum as (tok & Hin & Hnum).
      exists tok. split; [|done].
      rewrite Forall_forall in Hconv. specialize (Hconv tok Hin).
      destruct (decide (cell_of tok = NaN)) as [|Hc]; [done|].
      destruct Hnum. by apply numeric_cell_of.
    + right. split; [done|lia].
Qed.

Lemma has_nan_row n l :
  short_line n l → pd.has_nan (row_of_line n l) = negb (point_line n l).
Proof. exact (has_nan_fields n (Py.split " " l)). Qed.



Lemma values_imap_rows {A} (row : A → list cell) (ls : list A) :
  (imap (λ i l, (Ix i, row l)) ls).*2 = row <$> ls.
Proof. rewrite fmap_imap. apply imap_const. Qed.

(** cleaning the frame of a file of short lines keeps the point lines *)
Lemma dropna_short_rows n lines :
  Forall (λ l, pd.blank_line l = false → short_line n l) lines →
  filter (λ r, pd.has_nan r = false)
         (row_of_line n <$> filter (λ l, pd.blank_line l = false) lines)
  = point_of_line <$> filter (λ l, point_line n l = true) lines.
Proof.
  induction 1 as [|l lines Hl _ IH]; [done|].
  destruct (pd.blank_line l) eqn:Hb.
  - rewrite (filter_cons_False (λ l, pd.blank_line l = false)) by (by rewrite Hb).
    rewrite IH. rewrite filter_cons_False; [done|].
    intros Hp%point_line_not_blank. congruence.
  - rewrite (filter_cons_True (λ l, pd.blank_line l = false)) by done.
    rewrite fmap_cons. specialize (Hl eq_refl).
    destruct (point_line n l) eqn:Hp.
    + rewrite !filter_cons_True by (by rewrite ?has_nan_row, ?Hp).
      by rewrite fmap_cons, IH, point_line_row.
    + rewrite !filter_cons_False by (by rewrite ?has_nan_row, ?Hp). done.
Qed.

(** ** Rows of one file inside the assembled table *)

Lemma sublist_filter_mono {A} (P : A → Prop) `{!∀ x, Decision (P x)} l1 l2 :
  l1 `sublist_of` l2 → filter P l1 `sublist_of` filter P l2.
Proof.
  induction 1 as [|x l1 l2 _ IH|x l1 l2 _ IH]; [done|..].
  - destruct (decide (P x)).
    + rewrite !filter_cons_True by done. by constructor.
    + by rewrite !filter_cons_False.
  - destruct (decide (P x)).
    + rewrite filter_cons_True by done. by constructor.
    + by rewrite filter_cons_False.
Qed.

Lemma sublist_join_elem {A} (l : list A) ls : l ∈ ls → l `sublist_of` mjoin ls.
Proof.
  intros (ls1 & ls2 & ->)%list_elem_of_split. rewrite join_app. simpl.
  apply sublist_inserts_l, sublist_inserts_r. done.
Qed.

Lemma assemble_shape_values fs path it flag frames T :
  Forall2 (λ f t, pd.read_csv fs f (schema flag) = OK t)
          (shard_files fs path it) frames →
  assemble_shape fs path it flag = OK T →
  columns T = schema flag ∧ dtype T = float32
  ∧ values T = filter (λ r, pd.has_nan r = false) (mjoin (values <$> frames))
  ∧ index T = Ix <$> seq 0 (length (rows T)).
Proof.
  intros Hall HT.
  destruct (assemble_shape_OK_inv _ _ _ _ _ HT) as (_ & Hne & _).
  rewrite (assemble_shape_frames _ _ _ _ _ Hne Hall) in HT.
  injection HT as <-. repeat split.
  - rewrite values_reset_index, values_dropna. unfold values at 1. simpl.
    rewrite values_join. do 2 f_equal. rewrite <-list_fmap_compose.
    by apply list_fmap_ext.
  - by rewrite index_reset_index, length_rows_reset_index.
Qed.

(** the clean rows of every selected file appear, in order, in the table *)
Lemma assemble_shape_includes fs path it flag p t T :
  p ∈ shard_files fs path it →
  pd.read_csv fs p (schema flag) = OK t →
  assemble_shape fs path it flag = OK T →
  values (pd.dropna t) `sublist_of` values T.
Proof.
  intros Hp Ht HT.
  destruct (assemble_shape_OK_inv _ _ _ _ _ HT) as (frames & _ & Hall).
  destruct (assemble_shape_values _ _ _ _ _ _ Hall HT) as (_ & _ & -> & _).
  rewrite values_dropna. apply sublist_filter_mono, sublist_join_elem.
  apply list_elem_of_lookup in Hp as [i Hi].
  destruct (Forall2_lookup_l _ _ _ _ _ Hall Hi) as (t' & Ht' & Hread).
  assert (t' = t) as -> by congruence.
  apply list_elem_of_fmap. exists t. split; [done|].
  by apply list_elem_of_lookup_2 in Ht'.
Qed.

Lemma filter_all {A} (P : A → Prop) `{!∀ x, Decision (P x)} (l : list A) :
  (∀ x, x ∈ l → P x) → filter P l = l.
Proof.
  induction l as [|x l IH]; intros Hall; [done|].
  rewrite filter_cons_True by (apply Hall; by left).
  f_equal. apply IH. intros y Hy. apply Hall. by right.
Qed.

Lemma has_nan_false r : pd.has_nan r = false ↔ NaN ∉ r.
Proof. unfold pd.has_nan. apply bool_decide_eq_false. Qed.

Lemma dropna_clean_id T :
  (∀ r, r ∈ rows T → NaN ∉ r.2) → pd.dropna T = T.
Proof.
  destruct T as [c d rs]. unfold pd.dropna. simpl. intros Hclean. f_equal.
  apply filter_all. intros r Hr. by apply has_nan_false, Hclean.
Qed.

Lemma filter_join {A} (P : A → Prop) `{!∀ x, Decision (P x)} (ls : list (list A)) :
  filter P (mjoin ls) = mjoin (filter P <$> ls).
Proof.
  induction ls as [|l ls IH]; [done|]. simpl. by rewrite filter_app, IH.
Qed.

Lemma point_line_no_nan m l : point_line m l = true → NaN ∉ point_of_line l.
Proof.
  intros [_ Hnum]%bool_decide_eq_true (tok & Hnan & Htok)%list_elem_of_fmap.
  rewrite Forall_forall in Hnum.
  apply Hnum, numeric_cell_of in Htok as [_ Htok]. congruence.
Qed.

(** in a file of skipped lines and point lines, the point lines are the
    lines that are not skipped *)
Lemma skipped_or_point_lines n lines :
  Forall (λ l, pd.blank_line l = true ∨ point_line n l = true) lines →
  Forall (λ l, pd.blank_line l = false → short_line n l) lines
  ∧ Forall (λ l, point_line n l = true)
           (filter (λ l, pd.blank_line l = false) lines)
  ∧ filter (λ l, point_line n l = true) lines
    = filter (λ l, pd.blank_line l = false) lines.
Proof.
  intros Hlines. split; [|split].
  - eapply Forall_impl; [exact Hlines|]. intros l [Hb|Hp] Hnb; [congruence|].
    by apply point_line_short.
  - apply Forall_forall. intros l [Hnb Hl]%list_elem_of_filter.
    rewrite Forall_forall in Hlines. by destruct (Hlines l Hl) as [Hb|Hp]; [congruence|].
  - induction Hlines as [|l lines Hl _ IH]; [done|]. destruct Hl as [Hb|Hp].
    + rewrite (filter_cons_False (λ l, point_line n l = true))
        by (intros Hp%point_line_not_blank; congruence).
      by rewrite filter_cons_False by (by rewrite Hb).
    + rewrite !filter_cons_True by eauto using point_line_not_blank.
      by rewrite IH.
Qed.

(** C5, counterexample: a separator line that holds one space is white
    space only, yet it is not skipped: it is read as a record of two empty
    fields and gives a row of missing values in the frame of the file.  With
    three spaces it is a record of four fields, more than the two that are
    expected, and the read fails: the file contributes no row at all. *)
Lemma blank_line_of_spaces_is_read :
  Forall (λ l, Py.strip l = EmptyString ∨ point_line 2 l = true)
         ["0.1 0.2"; " "; "0.3 0.4"]
  ∧ pd.read_csv fs_spaces "plic/points_000120_n000.txt" ["px"; "py"]
    = OK {| columns := ["px"; "py"]; dtype := float32;
            rows := [(Ix 0, [Dec 1 (-1); Dec 2 (-1)]);
                     (Ix 1, [NaN; NaN]);
                     (Ix 2, [Dec 3 (-1); Dec 4 (-1)])] |}
  ∧ Forall (λ l, Py.strip l = EmptyString ∨ point_line 2 l = true)
           ["0.1 0.2"; "   "; "0.3 0.4"]
  ∧ assemble_shape fs_wide_blank "plic" 120 true = Raise ValueError
  ∧ ¬ ∃ T, assemble_shape fs_wide_blank "plic" 120 true = OK T.
Proof.
  assert (assemble_shape fs_wide_blank "plic" 120 true = Raise ValueError) as H
    by (vm_compute; reflexivity).
  split.
  { repeat (apply Forall_cons; split;
            [first [left; vm_compute; reflexivity | right; vm_compute; reflexivity]|]).
    apply Forall_nil_2. }
  split; [vm_compute; reflexivity|]. split.
  { repeat (apply Forall_cons; split;
            [first [left; vm_compute; reflexivity | right; vm_compute; reflexivity]|]).
    apply Forall_nil_2. }
  split; [done|]. intros [T HT]. congruence.
Qed.

(** C5, as amended: when every selected shard file consists of lines that
    the reader skips (empty, or made of tabs) and of well-formed point
    lines, [assemble_shape] returns a table; the frame read from each file
    has one row per line that is not skipped, in file order, none of them
    with a missing value and none for a skipped line, wherever the skipped
    lines stand; the table is the concatenation of these rows, so each file
    contributes as many rows as it has point lines. *)
Theorem blank_line_neutrality fs path it flag :
  shard_files fs path it ≠ [] →
  (∀ p, p ∈ shard_files fs path it →
        ∃ lines, files fs !! p = Some (TextFile lines)
                 ∧ Forall (λ l, pd.blank_line l = true
                                ∨ point_line (length (schema flag)) l = true)
                          lines) →
  (∀ p, p ∈ shard_files fs path it →
        ∃ t, pd.read_csv fs p (schema flag) = OK t
             ∧ values t
               = point_of_line
                   <$> filter (λ l, pd.blank_line l = false) (lines_of fs p)
             ∧ pd.dropna t = t)
  ∧ ∃ T, assemble_shape fs path it flag = OK T
         ∧ values T
           = mjoin ((λ p, point_of_line
                            <$> filter (λ l, pd.blank_line l = false)
                                       (lines_of fs p))
                    <$> shard_files fs path it)
         ∧ length (rows T)
           = sum_list ((λ p, length (filter (λ l, pd.blank_line l = false)
                                            (lines_of fs p)))
                       <$> shard_files fs path it).
Proof.
  intros Hne Htext. set (n := length (schema flag)) in *.
  set (frame := λ p,
         {| columns := schema flag; dtype := float32;
            rows := imap (λ i l, (Ix i, row_of_line n l))
                      (filter (λ l, pd.blank_line l = false) (lines_of fs p)) |}).
  assert (∀ p, p ∈ shard_files fs path it →
            pd.read_csv fs p (schema flag) = OK (frame p)
            ∧ Forall (λ l, pd.blank_line l = false → short_line n l) (lines_of fs p)
            ∧ Forall (λ l, point_line n l = true)
                     (filter (λ l, pd.blank_line l = false) (lines_of fs p))
            ∧ filter (λ l, point_line n l = true) (lines_of fs p)
              = filter (λ l, pd.blank_line l = false) (lines_of fs p)) as Hfile.
  { intros p Hp. destruct (Htext p Hp) as (lines & Hfile & Hlines).
    destruct (skipped_or_point_lines _ _ Hlines) as (Hshort & Hpoint & Hfilter).
    unfold frame, lines_of. rewrite Hfile. split; [|done].
    by apply read_csv_short. }
  assert (∀ p, p ∈ shard_files fs path it →
            row_of_line n <$> filter (λ l, pd.blank_line l = false) (lines_of fs p)
            = point_of_line
                <$> filter (λ l, pd.blank_line l = false) (lines_of fs p)) as Hrows.
  { intros p Hp. destruct (Hfile p Hp) as (_ & _ & Hpoint & _).
    apply Forall_fmap_ext_1. eapply Forall_impl; [exact Hpoint|].
    intros l Hl. by apply point_line_row. }
  assert (∃ T, assemble_shape fs path it flag = OK T
               ∧ values T
                 = mjoin ((λ p, point_of_line
                                  <$> filter (λ l, pd.blank_line l = false)
                                             (lines_of fs p))
                          <$> shard_files fs path it)) as (T & HT & Hv).
  { eexists. split.
    - apply (assemble_shape_frames _ _ _ _ (frame <$> shard_files fs path it) Hne).
      apply Forall2_fmap_r, Forall_Forall2_diag, Forall_forall.
      intros p Hp. by destruct (Hfile p Hp) as [? _].
    - rewrite values_reset_index, values_dropna. unfold values at 1. simpl.
      rewrite values_join, filter_join, <-!list_fmap_compose.
      f_equal. apply Forall_fmap_ext_1, Forall_forall. intros p Hp. simpl.
      destruct (Hfile p Hp) as (_ & Hshort & _ & Hfilter).
      by rewrite values_imap_rows, dropna_short_rows, Hfilter. }
  split.
  - intros p Hp. destruct (Hfile p Hp) as (Hread & _ & Hpoint & _).
    exists (frame p). split; [done|]. split.
    + unfold values. simpl. rewrite values_imap_rows. by apply Hrows.
    + apply dropna_clean_id. intros r Hr. simpl in Hr.
      apply elem_of_lookup_imap in Hr as (i & l & -> & Hl). simpl.
      apply list_elem_of_lookup_2 in Hl. rewrite Forall_forall in Hpoint.
      apply Hpoint in Hl.
      rewrite (point_line_row _ _ Hl). by apply (point_line_no_nan n).
  - exists T. split; [done|]. split; [done|].
    rewrite <-(length_fmap snd). fold (values T).
    rewrite Hv, length_join, <-list_fmap_compose. f_equal.
    apply list_fmap_ext. intros i p _. simpl. apply length_fmap.
Qed.

Lemma blank_line_neutrality_witness :
  ∃ T, assemble_shape fs_tabs "plic" 120 true = OK T
       ∧ values T = [[Dec 1 (-1); Dec 2 (-1)]; [Dec 3 (-1); Dec 4 (-1)];
                     [Dec 5 (-1); Dec 6 (-1)]]
       ∧ length (rows T) = 3%nat.
Proof.
  assert (shard_files fs_tabs "plic" 120
          = ["plic/points_000120_n000.txt"; "plic/points_000120_n001.txt"])
    as Hfiles by (vm_compute; reflexivity).
  destruct (blank_line_neutrality fs_tabs "plic" 120 true)
    as (_ & T & HT & Hv & Hlen).
  - rewrite Hfiles. discriminate.
  - intros p Hp. rewrite Hfiles in Hp.
    repeat (apply elem_of_cons in Hp as [->|Hp]);
      try (exfalso; exact (not_elem_of_nil _ Hp));
      eexists; (split; [vm_compute; reflexivity|]);
      repeat (apply Forall_cons; split;
              [first [left; vm_compute; reflexivity
                     | right; vm_compute; reflexivity]|]);
      apply Forall_nil_2.
  - exists T. split; [exact HT|]. split.
    + rewrite Hv, Hfiles. vm_compute. reflexivity.
    + rewrite Hlen, Hfiles. vm_compute. reflexivity.
Defined.

(** ** Malformed fields *)






(** ** Serialization *)

Lemma artifact_name_no_slash it :
  no_char "/" ("plic_" +:+ Py.format_06d it +:+ ".pkl") = true.
Proof. by rewrite !no_char_app, (format_06d_no_char "/" it). Qed.

Lemma process_shape_unfold fs source target it flag :
  process_shape fs source target it flag
  = data ← assemble_shape fs source it flag;
    if bool_decide (target ∈ dirs fs)
    then OK (tt, write_file fs (artifact_path target it) (PickleFile data))
    else Raise OSError.
Proof.
  unfold process_shape, pd.to_pickle.
  by rewrite (os_path_split_join _ _ (artifact_name_no_slash it)).
Qed.

Lemma path_last_component a b x y :
  no_char "/" x = true → no_char "/" y = true →
  a +:+ "/" +:+ x = b +:+ "/" +:+ y → a = b ∧ x = y.
Proof.
  intros Hx Hy Heq. apply (f_equal os_path_split) in Heq.
  rewrite !os_path_split_join in Heq by done. by injection Heq.
Qed.

(** an artifact is never mistaken for a shard of the source directory *)
Lemma artifact_not_shard source target it it' :
  glob_match source (shard_prefix it +:+ "*") (artifact_path target it') = false.
Proof.
  apply not_true_is_false. intros (name & Heq & Hs & Hm & _)%glob_match_spec.
  apply fnmatch_prefix_star in Hm as [rest ->]; [|apply shard_prefix_no_star].
  apply path_last_component in Heq as [_ Heq];
    [|apply artifact_name_no_slash|done].
  unfold shard_prefix in Heq. discriminate.
Qed.

Lemma read_csv_local fs1 fs2 p names :
  files fs1 !! p = files fs2 !! p → pd.read_csv fs1 p names = pd.read_csv fs2 p names.
Proof. intros H. unfold pd.read_csv, open_text. by rewrite H. Qed.

Lemma mapM_result_ext {A B} (f g : A → result B) l :
  (∀ x, x ∈ l → f x = g x) → mapM f l = mapM g l.
Proof.
  induction l as [|x l IH]; intros H; [done|].
  rewrite !mapM_result_cons, (H x) by (by left).
  rewrite IH; [done|]. intros y Hy. apply H. by right.
Qed.

(** the table depends on the shards of the iteration and on nothing else *)
Lemma assemble_shape_local fs1 fs2 path it flag :
  (∀ p, glob_match path (shard_prefix it +:+ "*") p = true →
        files fs1 !! p = files fs2 !! p) →
  assemble_shape fs1 path it flag = assemble_shape fs2 path it flag.
Proof.
  intros Hagree. rewrite !assemble_shape_unfold.
  assert (shard_files fs1 path it = shard_files fs2 path it) as Hfiles.
  { unfold shard_files. apply sorted_str_unique, glob_perm.
    - apply shard_pattern_no_slash.
    - intros p Hp. by rewrite (Hagree p Hp). }
  rewrite <-Hfiles.
  rewrite (mapM_result_ext _ (λ file, pd.read_csv fs2 file (schema flag))); [done|].
  intros p Hp. apply read_csv_local, Hagree.
  unfold shard_files in Hp. rewrite elem_of_sorted_str in Hp.
  by apply elem_of_glob in Hp as [_ Hp]; [|apply shard_pattern_no_slash].
Qed.

Lemma assemble_shape_write fs path it flag target it' c :
  assemble_shape (write_file fs (artifact_path target it') c) path it flag
  = assemble_shape fs path it flag.
Proof.
  apply assemble_shape_local. intros p Hp. simpl.
  apply lookup_insert_ne. intros <-. by rewrite artifact_not_shard in Hp.
Qed.

(** C8: the outcome of [process_shape] (the artifact it writes, or the
    exception it raises) is a function of the shards of the iteration in the
    source directory and of the existence of the target directory; and
    running it again on the file system it produced writes the same artifact
    and leaves that file system as it is. *)
Theorem process_shape_idempotent fs fs2 source target it flag :
  (∀ p, glob_match source (shard_prefix it +:+ "*") p = true →
        files fs !! p = files fs2 !! p) →
  (target ∈ dirs fs ↔ target ∈ dirs fs2) →
  (λ r, files r.2 !! artifact_path target it)
    <$> process_shape fs source target it flag
  = (λ r, files r.2 !! artifact_path target it)
    <$> process_shape fs2 source target it flag
  ∧ ∀ fs1, process_shape fs source target it flag = OK (tt, fs1) →
           process_shape fs1 source target it flag = OK (tt, fs1).
Proof.
  intros Hagree Hdir. split.
  - rewrite !process_shape_unfold, (assemble_shape_local fs fs2) by done.
    destruct (assemble_shape fs2 source it flag) as [data|e]; [|done]. simpl.
    rewrite (bool_decide_ext _ _ Hdir). case_bool_decide; [|done]. simpl.
    by rewrite !lookup_insert_eq.
  - intros fs1. rewrite !process_shape_unfold.
    destruct (assemble_shape fs source it flag) as [data|e] eqn:Hdata; [|done].
    simpl. case_bool_decide as Ht; [|done]. intros [= <-].
    rewrite assemble_shape_write, Hdata. simpl.
    rewrite bool_decide_eq_true_2 by done. do 2 f_equal.
    unfold write_file. simpl. f_equal. apply insert_insert_eq.
Qed.

Lemma process_shape_idempotent_witness :
  process_shape fs_first_run "plic" "out" 120 true = OK (tt, fs_first_run).
Proof.
  destruct (process_shape_idempotent fs_example fs_example "plic" "out" 120 true)
    as [_ Hagain]; [done|done|].
  apply Hagain. vm_compute. reflexivity.
Defined.

(** C9: when the table is assembled and the target directory exists,
    [process_shape] returns nothing and its effect is one write: the file
    [<target>/plic_<iteration:06d>.pkl] then holds the table as assembled
    (columns [px, py[, pz]], dtype float32), whatever it held before, every
    other path and the directories are untouched, and distinct iterations
    are written to distinct paths. *)
Theorem process_shape_writes fs source target it flag data :
  assemble_shape fs source it flag = OK data →
  target ∈ dirs fs →
  ∃ fs', process_shape fs source target it flag = OK (tt, fs')
         ∧ files fs' !! (target +:+ "/" +:+ "plic_" +:+ Py.format_06d it +:+ ".pkl")
           = Some (PickleFile data)
         ∧ (∀ p, p ≠ artifact_path target it → files fs' !! p = files fs !! p)
         ∧ dirs fs' = dirs fs
         ∧ columns data = schema flag ∧ dtype data = float32
         ∧ ∀ it', artifact_path target it' = artifact_path target it → it' = it.
Proof.
  intros Hdata Htarget. eexists. split.
  { rewrite process_shape_unfold, Hdata. simpl.
    by rewrite bool_decide_eq_true_2. }
  split; [apply lookup_insert_eq|].
  split; [intros p Hp; simpl; by apply lookup_insert_ne|].
  split; [done|].
  destruct (assemble_shape_OK_inv _ _ _ _ _ Hdata) as (frames & _ & Hall).
  destruct (assemble_shape_values _ _ _ _ _ _ Hall Hdata) as (Hc & Hd & _).
  split; [done|]. split; [done|].
  intros it' Heq. unfold artifact_path in Heq.
  do 3 apply String.app_inj in Heq.
  apply format_06d_inj.
  assert (∀ a b : string, a +:+ ".pkl" = b +:+ ".pkl" → a = b) as Hsuffix.
  { intros a. induction a as [|c a IH]; intros [|d b] H; str_simpl; try done.
    - revert H. str_simpl. destruct b as [|? [|? [|? [|? ?]]]]; discriminate.
    - revert H. str_simpl. destruct a as [|? [|? [|? [|? ?]]]]; discriminate.
    - rewrite !string_app_cons in H. injection H as -> H. by rewrite (IH b H). }
  by apply Hsuffix.
Qed.

Lemma process_shape_writes_witness :
  ∃ fs', process_shape fs_example "plic" "out" 120 true = OK (tt, fs')
         ∧ files fs' !! "out/plic_000120.pkl"
           = Some (PickleFile
               {| columns := ["px"; "py"]; dtype := float32;
                  rows := [(Ix 0, [Dec 1 (-1); Dec 2 (-1)]);
                           (Ix 1, [Dec 3 (-1); Dec 4 (-1)]);
                           (Ix 2, [Dec 5 (-1); Dec 6 (-1)]);
                           (Ix 3, [Dec 7 (-1); Dec 8 (-1)])] |}).
Proof.
  destruct (process_shape_writes fs_example "plic" "out" 120 true _ end_to_end)
    as (fs' & Hrun & Hfile & _).
  - simpl. set_solver.
  - exists fs'. split; [exact Hrun|exact Hfile].
Defined.

(** ** Dimensionality *)






(** ** Selection by prefix *)

(** C10: every file of the source directory whose name starts with
    [points_<iteration:06d>_n] is selected, whatever follows the prefix; it
    is parsed (if its read fails the whole call fails), and its clean rows
    are part of the returned table. *)
Theorem assemble_shape_selects_by_prefix fs path it flag rest :
  no_char "/" rest = true →
  is_Some (files fs !! (path +:+ "/" +:+ shard_prefix it +:+ rest)) →
  (path +:+ "/" +:+ shard_prefix it +:+ rest)
    ∈ Py.sorted_str
        (glob fs ((path +:+ "/points_" +:+ Py.format_06d it +:+ "_n") +:+ "*"))
  ∧ (∀ e, pd.read_csv fs (path +:+ "/" +:+ shard_prefix it +:+ rest)
            (schema flag) = Raise e →
          ∃ e', assemble_shape fs path it flag = Raise e')
  ∧ (∀ T, assemble_shape fs path it flag = OK T →
          ∃ t, pd.read_csv fs (path +:+ "/" +:+ shard_prefix it +:+ rest)
                 (schema flag) = OK t
               ∧ values (pd.dropna t) `sublist_of` values T).
Proof.
  intros Hrest Hfile.
  assert ((path +:+ "/" +:+ shard_prefix it +:+ rest) ∈ shard_files fs path it)
    as Hin by (apply elem_of_shard_files; by exists rest).
  split.
  { replace ((path +:+ "/points_" +:+ Py.format_06d it +:+ "_n") +:+ "*")
      with (path +:+ "/" +:+ shard_prefix it +:+ "*"); [exact Hin|].
    unfold shard_prefix. by rewrite !string_app_assoc. }
  split.
  - intros e He. by apply (assemble_shape_raises _ _ _ _ _ e Hin).
  - intros T HT.
    destruct (pd.read_csv fs _ (schema flag)) as [t|e] eqn:Hread.
    + exists t. split; [done|]. by eapply assemble_shape_includes.
    + destruct (assemble_shape_raises _ _ _ _ _ e Hin Hread) as [e' He'].
      congruence.
Qed.

Lemma assemble_shape_selects_by_prefix_witness :
  assemble_shape fs_backup "plic" 120 true
  = OK {| columns := ["px"; "py"]; dtype := float32;
          rows := [(Ix 0, [Dec 1 (-1); Dec 2 (-1)]);
                   (Ix 1, [Dec 91 (-1); Dec 92 (-1)])] |}
  ∧ "plic/points_000120_n000.txt.bak"
      ∈ Py.sorted_str (glob fs_backup "plic/points_000120_n*").
Proof.
  split; [vm_compute; reflexivity|].
  destruct (assemble_shape_selects_by_prefix fs_backup "plic" 120 true
              "000.txt.bak") as (Hin & _).
  - reflexivity.
  - vm_compute. by eexists.
  - exact Hin.
Defined.


(** * Further properties of the code *)

(** ** Discovery: what [get_iterations] returns and when it fails *)

Lemma glob_nil fs dir base :
  no_char "/" base = true →
  (∀ p, glob_match dir base p = true → files fs !! p = None) →
  glob fs (dir +:+ "/" +:+ base) = [].
Proof.
  intros Hb Hnone. destruct (glob fs _) as [|p l] eqn:Hl; [done|].
  assert (p ∈ glob fs (dir +:+ "/" +:+ base)) as Hp by (rewrite Hl; by left).
  apply elem_of_glob in Hp as [[c Hc] Hm]; [|done].
  rewrite (Hnone p Hm) in Hc. done.
Qed.

(** the listing of [glob] depends, up to order, on the set of paths only *)
Lemma glob_perm_keys fs1 fs2 pattern :
  (∀ p, is_Some (files fs1 !! p) ↔ is_Some (files fs2 !! p)) →
  glob fs1 pattern ≡ₚ glob fs2 pattern.
Proof.
  intros Hkeys. unfold glob. destruct (os_path_split pattern) as [d b].
  apply NoDup_Permutation.
  - apply NoDup_filter, NoDup_fst_map_to_list.
  - apply NoDup_filter, NoDup_fst_map_to_list.
  - intros p. rewrite !list_elem_of_filter, !elem_of_keys. by rewrite Hkeys.
Qed.

Lemma get_iterations_perm fs1 fs2 path :
  glob fs1 (path +:+ "/" +:+ "*_n000.txt")
    ≡ₚ glob fs2 (path +:+ "/" +:+ "*_n000.txt") →
  get_iterations fs1 path = get_iterations fs2 path.
Proof.
  intros Hperm. rewrite !get_iterations_unfold.
  apply mapM_sorted_perm; [done|].
  intros p e [_ Hp]%elem_of_glob; [|done]. by apply (iteration_of_matched path).
Qed.

Lemma get_iterations_write_unmatched fs path p c :
  glob_match path "*_n000.txt" p = false →
  get_iterations (write_file fs p c) path = get_iterations fs path.
Proof.
  intros Hno. apply get_iterations_perm, glob_perm; [done|].
  intros q Hq. simpl. rewrite lookup_insert_ne; [done|]. intros <-. congruence.
Qed.

(** X1: a source directory that is missing, or holds no visible file whose
    name ends in [_n000.txt], is nothing to do: [get_iterations] returns the
    empty list and does not raise. *)
Theorem get_iterations_nothing_to_do fs path :
  (∀ stem, no_char "/" stem = true →
           is_hidden (stem +:+ "_n000.txt") = false →
           files fs !! (path +:+ "/" +:+ stem +:+ "_n000.txt") = None) →
  get_iterations fs path = OK [].
Proof.
  intros Hnone. rewrite get_iterations_unfold, glob_nil; [done..|].
  intros p (name & -> & Hs & Hm & Hh)%glob_match_spec.
  apply (fnmatch_star_suffix "_n000.txt") in Hm as [stem ->]; [|done].
  destruct Hh as [Hh|Hh]; [|done].
  rewrite no_char_app in Hs. apply andb_true_iff in Hs as [Hs _].
  by apply Hnone.
Qed.

Lemma get_iterations_nothing_to_do_witness :
  get_iterations fs_empty "plic" = OK [].
Proof.
  apply (get_iterations_nothing_to_do fs_empty "plic").
  intros stem _ _. apply lookup_empty.
Defined.

(** X2: the only exception [get_iterations] raises is [ValueError], and it
    raises it exactly when the second underscore-separated field of some
    selected file name is not an integer; its indexing never fails. *)
Theorem get_iterations_raises_iff fs path e :
  get_iterations fs path = Raise e
  ↔ e = ValueError
    ∧ ∃ name field,
        (path +:+ "/" +:+ name) ∈ glob fs (path +:+ "/*_n000.txt")
        ∧ Py.item (Py.split "_" name) 1 = OK field
        ∧ Py.int field = Raise ValueError.
Proof.
  rewrite get_iterations_unfold.
  change (path +:+ "/*_n000.txt") with (path +:+ "/" +:+ "*_n000.txt").
  assert (∀ p, p ∈ glob fs (path +:+ "/" +:+ "*_n000.txt") →
               ∃ name field, p = path +:+ "/" +:+ name
                 ∧ Py.item (Py.split "_" name) 1 = OK field
                 ∧ iteration_of p = Py.int field) as Hshape.
  { intros p [_ (name & -> & Hs & Hm & _)%glob_match_spec]%elem_of_glob; [|done].
    rewrite (iteration_of_in_dir _ _ Hs). exists name.
    assert (∃ field, Py.item (Py.split "_" name) 1 = OK field) as [field Hf].
    { apply (fnmatch_star_suffix "_n000.txt") in Hm as [stem ->]; [|done].
      change ("_n000.txt") with (String "_" "n000.txt"). rewrite split_app.
      pose proof (split_nonempty "_" stem) as Hne.
      destruct (Py.split "_" stem) as [|w [|w' ws]]; [done|..]; simpl; eauto. }
    exists field. split; [done|]. split; [done|]. by rewrite Hf. }
  split.
  - destruct (mapM iteration_of _) as [its|e'] eqn:Hm; [done|].
    simpl. intros [= ->]. apply mapM_Raise in Hm as (p & Hp & He).
    destruct (Hshape p Hp) as (name & field & -> & Hitem & Hint).
    rewrite Hint in He.
    assert (e = ValueError) as ->.
    { unfold Py.int in He. destruct (Py.take_sign _).
      destruct (Py.digits_value _); congruence. }
    split; [done|]. by exists name, field.
  - intros (-> & name & field & Hp & Hitem & Hint).
    destruct (Hshape _ Hp) as (name' & field' & Heq & Hitem' & Hiter).
    do 2 apply String.app_inj in Heq. subst name'.
    assert (field' = field) as -> by congruence. rewrite Hint in Hiter.
    destruct (mapM_some_Raise iteration_of _ _ _ Hp Hiter) as [e' He'].
    rewrite He'. simpl. f_equal.
    apply mapM_Raise in He' as (q & Hq & Hqe).
    apply elem_of_glob in Hq as [_ Hq]; [|done].
    by apply (iteration_of_matched path q).
Qed.

(** X3: when [get_iterations] returns, its result is in ascending order and
    has one entry per selected file, the integer read from the second field
    of its name: as many entries as files, duplicates included. *)
Theorem get_iterations_one_per_file fs path l :
  get_iterations fs path = OK l →
  StronglySorted Z.le l
  ∧ l ≡ₚ value_of iteration_of <$> glob fs (path +:+ "/*_n000.txt")
  ∧ length l = length (glob fs (path +:+ "/*_n000.txt"))
  ∧ Forall (λ p, ∃ z, iteration_of p = OK z ∧ z ∈ l)
           (glob fs (path +:+ "/*_n000.txt")).
Proof.
  rewrite get_iterations_unfold.
  change (path +:+ "/*_n000.txt") with (path +:+ "/" +:+ "*_n000.txt").
  destruct (mapM iteration_of _) as [its|e] eqn:Hm; [|done].
  simpl. intros [= <-].
  pose proof (mapM_OK_values _ _ _ Hm) as ->.
  split; [apply sorted_int_sorted|]. split; [apply sorted_int_perm|].
  split; [by rewrite sorted_int_perm, length_fmap|].
  apply Forall_forall. intros p Hp. apply mapM_OK in Hm.
  apply list_elem_of_lookup in Hp as [i Hi].
  destruct (Forall2_lookup_l _ _ _ _ _ Hm Hi) as (z & Hz & Hpz).
  exists z. split; [done|]. rewrite sorted_int_perm.
  by apply list_elem_of_lookup_2 in Hz.
Qed.

Lemma get_iterations_one_per_file_witness :
  length [10; 10] = length (glob fs_dup ("plic" +:+ "/*_n000.txt")).
Proof.
  destruct (get_iterations_one_per_file fs_dup "plic" [10; 10])
    as (_ & _ & Hlen & _); [vm_compute; reflexivity|exact Hlen].
Defined.

(** X4: discovery reads names only: overwriting the content of an existing
    file, whichever it is, changes neither the result of [get_iterations]
    nor whether it raises. *)
Theorem get_iterations_names_only fs path p c :
  is_Some (files fs !! p) →
  get_iterations (write_file fs p c) path = get_iterations fs path.
Proof.
  intros Hp. apply get_iterations_perm, glob_perm_keys. intros q. simpl.
  destruct (decide (p = q)) as [<-|Hne].
  - rewrite lookup_insert_eq. split; [done|by eauto].
  - by rewrite lookup_insert_ne.
Qed.

Lemma get_iterations_names_only_witness :
  get_iterations
    (write_file fs_example "plic/points_000120_n000.txt" (TextFile ["junk"]))
    "plic"
  = get_iterations fs_example "plic".
Proof.
  apply (get_iterations_names_only fs_example "plic").
  vm_compute. by eexists.
Defined.

(** ** Assembly: selection, output invariants and failures *)

Lemma app_sep_inj (c : ascii) (a b x y : string) :
  no_char c a = true → no_char c b = true →
  a +:+ String c x = b +:+ String c y → a = b ∧ x = y.
Proof.
  unfold no_char.
  revert b. induction a as [|d a IH]; intros [|d' b] Ha Hb; str_simpl.
  - by intros [= ->].
  - intros [= -> _]. simpl in Hb. by rewrite Ascii.eqb_refl in Hb.
  - intros [= -> _]. simpl in Ha. by rewrite Ascii.eqb_refl in Ha.
  - intros [= -> Heq]. simpl in Ha, Hb.
    apply andb_true_iff in Ha as [_ Ha]. apply andb_true_iff in Hb as [_ Hb].
    destruct (IH b Ha Hb Heq) as [-> ->]. done.
Qed.

(** X5: the six-digit prefix keeps iterations apart: no file is selected
    for two different iterations (the shards of iteration 12 never enter the
    table of iteration 120, nor the other way round). *)
Theorem shard_files_disjoint fs path it1 it2 p :
  p ∈ Py.sorted_str
        (glob fs ((path +:+ "/points_" +:+ Py.format_06d it1 +:+ "_n") +:+ "*")) →
  p ∈ Py.sorted_str
        (glob fs ((path +:+ "/points_" +:+ Py.format_06d it2 +:+ "_n") +:+ "*")) →
  it1 = it2.
Proof.
  assert (∀ it, (path +:+ "/points_" +:+ Py.format_06d it +:+ "_n") +:+ "*"
                = path +:+ "/" +:+ shard_prefix it +:+ "*") as Hpat.
  { intros it. unfold shard_prefix. by rewrite !string_app_assoc. }
  rewrite !Hpat. fold (shard_files fs path it1) (shard_files fs path it2).
  intros (r1 & -> & _ & _)%elem_of_shard_files
         (r2 & Heq & _ & _)%elem_of_shard_files.
  do 2 apply String.app_inj in Heq. unfold shard_prefix in Heq.
  rewrite !string_app_assoc in Heq. apply String.app_inj in Heq.
  change ("_n" +:+ ?r) with (String "_" ("n" +:+ r)) in Heq.
  apply app_sep_inj in Heq as [Heq _]; try by apply format_06d_no_char.
  by apply format_06d_inj.
Qed.

Lemma shard_files_disjoint_witness : 120 = 120.
Proof.
  apply (shard_files_disjoint fs_example "plic" 120 120
           "plic/points_000120_n001.txt"); vm_compute; right; left.
Defined.

Lemma reset_index_labelled_id T :
  (∀ i r, rows T !! i = Some r → r.1 = Ix i) → pd.reset_index T = T.
Proof.
  destruct T as [c d rs]. unfold pd.reset_index. simpl. intros Hlab. f_equal.
  apply list_eq. intros i. rewrite list_lookup_imap.
  destruct (rs !! i) as [[lab r]|] eqn:Hi; [|done]. simpl.
  by rewrite <-(Hlab i _ Hi).
Qed.

(** a cleaned and re-labelled frame is a fixed point of both steps *)
Lemma clean_frame_fixed df :
  Forall (λ r, NaN ∉ r) (values (pd.reset_index (pd.dropna df)))
  ∧ pd.dropna (pd.reset_index (pd.dropna df)) = pd.reset_index (pd.dropna df)
  ∧ pd.reset_index (pd.reset_index (pd.dropna df))
    = pd.reset_index (pd.dropna df).
Proof.
  assert (∀ r, r ∈ rows (pd.reset_index (pd.dropna df)) → NaN ∉ r.2) as Hclean.
  { intros r Hr. simpl in Hr.
    apply elem_of_lookup_imap in Hr as (i & r' & -> & Hr'). simpl.
    apply list_elem_of_lookup_2, list_elem_of_filter in Hr' as [Hr' _].
    by apply has_nan_false. }
  split; [|split].
  - apply Forall_forall. intros r (r' & -> & Hr')%list_elem_of_fmap. auto.
  - by apply dropna_clean_id.
  - apply reset_index_labelled_id. intros i r Hr. simpl in Hr.
    rewrite list_lookup_imap in Hr.
    destruct (filter _ (rows df) !! i); simpl in Hr; [|done].
    by injection Hr as <-.
Qed.

(** X6: every table that [assemble_shape] returns is clean and settled: no
    row has a missing value, and cleaning it or re-labelling it once more
    gives the same table. *)
Theorem assemble_shape_clean fs path it flag T :
  assemble_shape fs path it flag = OK T →
  Forall (λ r, NaN ∉ r) (values T)
  ∧ pd.dropna T = T
  ∧ pd.reset_index T = T.
Proof.
  rewrite assemble_shape_unfold.
  destruct (mapM _ (shard_files fs path it)) as [frames|e]; [|done]. simpl.
  destruct (pd.concat frames) as [df|e]; [|done]. simpl.
  intros [= <-]. apply clean_frame_fixed.
Qed.

Lemma assemble_shape_clean_witness :
  ∃ T, assemble_shape fs_ragged "plic" 120 true = OK T
       ∧ Forall (λ r, NaN ∉ r) (values T) ∧ pd.dropna T = T.
Proof.
  eexists. split; [vm_compute; reflexivity|].
  destruct (assemble_shape_clean fs_ragged "plic" 120 true
              {| columns := ["px"; "py"]; dtype := float32;
                 rows := [(Ix 0, [Dec 1 (-1); Dec 2 (-1)]);
                          (Ix 1, [Dec 5 (-1); Dec 6 (-1)])] |})
    as (Hnan & Hdrop & _); [vm_compute; reflexivity|].
  split; [exact Hnan|exact Hdrop].
Defined.

(** ** Reading a shard that has more fields than columns *)

Lemma filter_blank_point_lines n lines :
  Forall (λ l, l = EmptyString ∨ point_line n l = true) lines →
  filter (λ l, pd.blank_line l = false) lines
  = filter (λ l, l ≠ EmptyString) lines.
Proof.
  induction 1 as [|l lines Hl _ IH]; [done|]. destruct Hl as [->|Hl].
  - rewrite !filter_cons_False by (by intros ?). done.
  - pose proof (point_line_nonempty _ _ Hl).
    rewrite !filter_cons_True by eauto using point_line_not_blank.
    by rewrite IH.
Qed.

Lemma convert_point_line m l :
  point_line m l = true →
  mapM pd.to_float (resize m EmptyString (Py.split " " l)) = OK (point_of_line l).
Proof.
  intros [Hlen Hnum]%bool_decide_eq_true. rewrite resize_all_alt by done.
  apply mapM_fmap_OK. eapply Forall_impl; [exact Hnum|].
  intros tok Htok. by apply converts_cell_of, numeric_converts.
Qed.

Lemma point_lines_plain n lines :
  Forall (λ l, l = EmptyString ∨ point_line n l = true) lines →
  Forall (λ l, no_char pd.quotechar l = true) lines.
Proof.
  intros H. eapply Forall_impl; [exact H|]. intros l [->|Hl]; [done|].
  by apply (short_line_no_quote n), point_line_short.
Qed.

Lemma read_csv_wide fs p names lead lines :
  files fs !! p = Some (TextFile lines) →
  Forall (λ l, l = EmptyString ∨ point_line (lead + length names) l = true)
         lines →
  pd.read_csv fs p names
  = OK {| columns := names; dtype := float32;
          rows := imap (λ i l, (if decide (lead = 0%nat) then Ix i
                                else Key (take lead (point_of_line l)),
                                drop lead (point_of_line l)))
                       (filter (λ l, l ≠ EmptyString) lines) |}.
Proof.
  intros Hfile Hlines. rewrite (read_csv_text _ _ _ _ Hfile).
  destruct (records_plain lines (point_lines_plain _ _ Hlines)) as [-> ->].
  rewrite (filter_blank_point_lines _ _ Hlines).
  assert (Forall (λ l, point_line (lead + length names) l = true)
                 (filter (λ l, l ≠ EmptyString) lines)) as Hpoint.
  { apply Forall_forall. intros l [Hne Hl]%list_elem_of_filter.
    rewrite Forall_forall in Hlines. by destruct (Hlines l Hl). }
  assert (table_width (Py.split " " <$> filter (λ l, l ≠ EmptyString) lines)
                      (length names)
          = (lead + length names)%nat
          ∨ filter (λ l, l ≠ EmptyString) lines = []) as [Hw|Hnil].
  { destruct (filter (λ l, l ≠ EmptyString) lines) as [|l0 ls]; [by right|].
    left. apply Forall_inv in Hpoint.
    apply bool_decide_eq_true in Hpoint as [Hlen _].
    rewrite fmap_cons. unfold table_width. rewrite Hlen. lia. }
  - rewrite Hw, bool_decide_eq_true_2.
    + rewrite (mapM_fmap_OK _ (fmap cell_of)).
      * unfold mbind, result_bind.
        replace (lead + length names - length names)%nat with lead by lia.
        do 2 f_equal. rewrite !imap_fmap. by apply imap_ext.
      * apply Forall_fmap. eapply Forall_impl; [exact Hpoint|].
        intros l Hl. simpl. by apply convert_point_line.
    + apply Forall_fmap. eapply Forall_impl; [exact Hpoint|].
      intros l [Hlen _]%bool_decide_eq_true. simpl. lia.
  - by rewrite Hnil.
Qed.

(** X8: the reverse mismatch is silent.  A shard whose lines carry three
    numbers, read with the 2D flag set, raises nothing: the first number of
    each line becomes the row label, [px] and [py] receive the second and
    the third, every row passes the cleaning step, and these shifted rows
    enter the assembled table, where re-labelling discards the first
    number. *)
Theorem assemble_shape_shifted_columns fs path it p lines :
  p ∈ shard_files fs path it →
  files fs !! p = Some (TextFile lines) →
  Forall (λ l, l = EmptyString ∨ point_line 3 l = true) lines →
  ∃ t, pd.read_csv fs p ["px"; "py"] = OK t
       ∧ rows t = (λ l, (Key (take 1 (point_of_line l)), drop 1 (point_of_line l)))
                  <$> filter (λ l, l ≠ EmptyString) lines
       ∧ pd.dropna t = t
       ∧ ∀ T, assemble_shape fs path it true = OK T →
              (λ l, drop 1 (point_of_line l))
                <$> filter (λ l, l ≠ EmptyString) lines
              `sublist_of` values T.
Proof.
  intros Hp Hfile Hlines.
  pose proof (read_csv_wide fs p ["px"; "py"] 1 lines Hfile Hlines) as Hread.
  simpl in Hread. eexists. split; [exact Hread|].
  assert (imap (λ (_ : nat) l, (Key (take 1 (point_of_line l)),
                                drop 1 (point_of_line l)))
               (filter (λ l, l ≠ EmptyString) lines)
          = (λ l, (Key (take 1 (point_of_line l)), drop 1 (point_of_line l)))
            <$> filter (λ l, l ≠ EmptyString) lines) as Hrows
    by apply imap_const.
  split; [exact Hrows|].
  assert (pd.dropna
            {| columns := ["px"; "py"]; dtype := float32;
               rows := imap (λ (_ : nat) l, (Key (take 1 (point_of_line l)),
                                             drop 1 (point_of_line l)))
                            (filter (λ l, l ≠ EmptyString) lines) |}
          = {| columns := ["px"; "py"]; dtype := float32;
               rows := imap (λ (_ : nat) l, (Key (take 1 (point_of_line l)),
                                             drop 1 (point_of_line l)))
                            (filter (λ l, l ≠ EmptyString) lines) |}) as Hclean.
  { apply dropna_clean_id. simpl. rewrite Hrows.
    intros r (l & -> & [_ Hl]%list_elem_of_filter)%list_elem_of_fmap. simpl.
    rewrite Forall_forall in Hlines.
    destruct (Hlines l Hl) as [->|Hpl]; [by vm_compute; inversion 1|].
    intros Hnan. apply (point_line_no_nan 3 l Hpl).
    by apply (subseteq_drop 1 (point_of_line l)). }
  split; [exact Hclean|].
  intros T HT.
  pose proof (assemble_shape_includes fs path it true p _ T Hp Hread HT) as Hsub.
  rewrite Hclean in Hsub. unfold values at 1 in Hsub. simpl in Hsub.
  rewrite Hrows, <-list_fmap_compose in Hsub. exact Hsub.
Qed.

Lemma assemble_shape_shifted_columns_witness :
  assemble_shape fs_three "plic" 120 true
  = OK {| columns := ["px"; "py"]; dtype := float32;
          rows := [(Ix 0, [Dec 2 0; Dec 3 0]); (Ix 1, [Dec 5 0; Dec 6 0])] |}
  ∧ ∃ t, pd.read_csv fs_three "plic/points_000120_n000.txt" ["px"; "py"] = OK t
         ∧ index t = [Key [Dec 1 0]; Key [Dec 4 0]].
Proof.
  split; [vm_compute; reflexivity|].
  destruct (assemble_shape_shifted_columns fs_three "plic" 120
              "plic/points_000120_n000.txt" ["1 2 3"; ""; "4 5 6"])
    as (t & Ht & Hrows & _).
  - vm_compute. left.
  - vm_compute. reflexivity.
  - repeat (apply Forall_cons; split;
            [(by left) || (right; vm_compute; reflexivity)|]).
    apply Forall_nil_2.
  - exists t. split; [exact Ht|]. unfold index. rewrite Hrows.
    vm_compute. reflexivity.
Defined.

(** ** The batch driver *)

Example process_case_example :
  (λ r, files (snd r) !! "../data/wa18_l16/plic_clean/plic_000010.pkl")
    <$> process_case fs_case "../data" "../data" "plic" "plic_clean" "wa18_l16"
  = OK (Some (PickleFile
         {| columns := ["px"; "py"]; dtype := float32;
            rows := [(Ix 0, [Dec 3 (-1); Dec 4 (-1)]);
                     (Ix 1, [Dec 5 (-1); Dec 6 (-1)])] |})).
Proof. vm_compute. reflexivity. Qed.

(** ** Writing: failures, inputs left alone, independent jobs *)

Lemma last_char_app a b :
  b ≠ EmptyString → last_char (a +:+ b) = last_char b.
Proof.
  intros Hb. induction a as [|c a IH]; str_simpl; [done|].
  rewrite <-IH. destruct (a +:+ b) eqn:Hab; [|done].
  destruct a; rewrite ?string_app_cons, ?string_app_nil_l in Hab; congruence.
Qed.

(** an artifact is never mistaken for a process-0 marker *)
Lemma artifact_not_marker path target it :
  glob_match path "*_n000.txt" (artifact_path target it) = false.
Proof.
  apply not_true_is_false. intros (name & Heq & Hs & Hm & _)%glob_match_spec.
  apply (fnmatch_star_suffix "_n000.txt") in Hm as [stem ->]; [|done].
  apply path_last_component in Heq as [_ Heq];
    [|apply artifact_name_no_slash|done].
  apply (f_equal last_char) in Heq.
  rewrite <-string_app_assoc in Heq. rewrite !last_char_app in Heq by done.
  discriminate.
Qed.

Lemma artifact_path_inj target it1 it2 :
  artifact_path target it1 = artifact_path target it2 → it1 = it2.
Proof.
  unfold artifact_path. intros Heq. do 3 apply String.app_inj in Heq.
  apply format_06d_inj.
  change (".pkl") with (String "." "pkl") in Heq.
  by apply app_sep_inj in Heq as [Heq _]; try by apply format_06d_no_char.
Qed.

(** X10: a successful [process_shape] leaves its inputs alone, also when the
    target is the source directory: afterwards [get_iterations] gives the
    same result for every directory and [assemble_shape] the same result for
    every directory, iteration and flag. *)
Theorem process_shape_keeps_inputs fs source target it flag fs' :
  process_shape fs source target it flag = OK (tt, fs') →
  (∀ path, get_iterations fs' path = get_iterations fs path)
  ∧ (∀ path it' flag',
       assemble_shape fs' path it' flag' = assemble_shape fs path it' flag').
Proof.
  rewrite process_shape_unfold.
  destruct (assemble_shape fs source it flag) as [data|e]; [|done]. simpl.
  case_bool_decide; [|done]. intros [= <-]. split.
  - intros path. apply get_iterations_write_unmatched, artifact_not_marker.
  - intros path it' flag'. apply assemble_shape_write.
Qed.

Lemma process_shape_keeps_inputs_witness :
  get_iterations fs_first_run "out" = get_iterations fs_example "out"
  ∧ assemble_shape fs_first_run "plic" 120 true
    = assemble_shape fs_example "plic" 120 true.
Proof.
  destruct (process_shape_keeps_inputs fs_example "plic" "out" 120 true
              fs_first_run) as [Hget Hasm]; [vm_compute; reflexivity|].
  split; [apply Hget|apply Hasm].
Defined.

Lemma process_shape_OK_inv fs source target it flag fs' :
  process_shape fs source target it flag = OK (tt, fs') →
  ∃ data, assemble_shape fs source it flag = OK data
          ∧ target ∈ dirs fs
          ∧ fs' = write_file fs (artifact_path target it) (PickleFile data).
Proof.
  rewrite process_shape_unfold.
  destruct (assemble_shape fs source it flag) as [data|e]; [|done]. simpl.
  case_bool_decide; [|done]. intros [= <-]. by exists data.
Qed.

Lemma process_shape_OK fs source target it flag data :
  assemble_shape fs source it flag = OK data → target ∈ dirs fs →
  process_shape fs source target it flag
  = OK (tt, write_file fs (artifact_path target it) (PickleFile data)).
Proof.
  intros Hdata Ht. rewrite process_shape_unfold, Hdata. simpl.
  by rewrite bool_decide_eq_true_2.
Qed.

(** X11: two jobs that write different artifacts are independent: if one
    run followed by the other succeeds, so does the opposite order, and the
    file system at the end is the same. *)
Theorem process_shape_commute fs s1 t1 it1 f1 s2 t2 it2 f2 fsA fsAB :
  artifact_path t1 it1 ≠ artifact_path t2 it2 →
  process_shape fs s1 t1 it1 f1 = OK (tt, fsA) →
  process_shape fsA s2 t2 it2 f2 = OK (tt, fsAB) →
  ∃ fsB, process_shape fs s2 t2 it2 f2 = OK (tt, fsB)
         ∧ process_shape fsB s1 t1 it1 f1 = OK (tt, fsAB).
Proof.
  intros Hne (d1 & Hd1 & Ht1 & ->)%process_shape_OK_inv
             (d2 & Hd2 & Ht2 & ->)%process_shape_OK_inv.
  rewrite assemble_shape_write in Hd2. simpl in Ht2.
  exists (write_file fs (artifact_path t2 it2) (PickleFile d2)). split.
  - by apply process_shape_OK.
  - rewrite (process_shape_OK _ _ _ _ _ d1);
      [|by rewrite assemble_shape_write|done].
    do 2 f_equal. unfold write_file. simpl. f_equal.
    by apply insert_insert_ne.
Qed.

Lemma process_shape_commute_witness :
  ∃ fsB, process_shape fs_example "plic" "out" 130 true = OK (tt, fsB)
         ∧ ∃ fsAB, process_shape fsB "plic" "out" 120 true = OK (tt, fsAB)
                   ∧ process_shape fs_first_run "plic" "out" 130 true
                     = OK (tt, fsAB).
Proof.
  destruct (process_shape fs_first_run "plic" "out" 130 true)
    as [[[] fsAB]|e] eqn:H2; [|vm_compute in H2; discriminate].
  destruct (process_shape_commute fs_example "plic" "out" 120 true
              "plic" "out" 130 true fs_first_run fsAB)
    as (fsB & HB & HAB); [vm_compute; discriminate|vm_compute; reflexivity|exact H2|].
  exists fsB. split; [exact HB|]. exists fsAB. split; [exact HAB|reflexivity].
Defined.

(** ** The batch of one case *)

Lemma run_jobs_cons fs source target flag it rest :
  run_jobs fs source target flag (it :: rest)
  = r ← process_shape fs source target it flag;
    run_jobs r.2 source target flag rest.
Proof. reflexivity. Qed.

(** what a finished batch has done *)
Lemma run_jobs_post fs source target flag its fs' :
  run_jobs fs source target flag its = OK (tt, fs') →
  dirs fs' = dirs fs
  ∧ (its ≠ [] → target ∈ dirs fs)
  ∧ (∀ it, it ∈ its →
       ∃ data, assemble_shape fs source it flag = OK data
               ∧ files fs' !! artifact_path target it = Some (PickleFile data))
  ∧ (∀ p, (∀ it, it ∈ its → p ≠ artifact_path target it) →
          files fs' !! p = files fs !! p).
Proof.
  revert fs. induction its as [|it rest IH]; intros fs.
  - intros [= <-]. repeat split; try done. intros it Hit. by apply elem_of_nil in Hit.
  - rewrite run_jobs_cons.
    destruct (process_shape fs source target it flag) as [[[] fs1]|e] eqn:Hp;
      [|done].
    simpl. intros Hrest.
    apply process_shape_OK_inv in Hp as (data & Hdata & Ht & ->).
    destruct (IH _ Hrest) as (Hdirs & _ & Hart & Hframe).
    split; [done|]. split; [done|]. split.
    + intros it' Hit'.
      destruct (decide (it' ∈ rest)) as [Hin|Hnin].
      * destruct (Hart it' Hin) as (data' & Hdata' & Hfile).
        rewrite assemble_shape_write in Hdata'. by exists data'.
      * apply elem_of_cons in Hit' as [->|?]; [|done].
        exists data. split; [done|]. rewrite Hframe.
        -- simpl. apply lookup_insert_eq.
        -- intros it' Hit' Heq. apply artifact_path_inj in Heq. by subst.
    + intros p Hp. rewrite Hframe.
      * simpl. apply lookup_insert_ne. intros Heq. apply (Hp it); [by left|done].
      * intros it' Hit'. apply Hp. by right.
Qed.

Lemma run_jobs_succeeds fs source target flag its :
  (∀ it, it ∈ its → ∃ data, assemble_shape fs source it flag = OK data) →
  (its ≠ [] → target ∈ dirs fs) →
  ∃ fs', run_jobs fs source target flag its = OK (tt, fs').
Proof.
  revert fs. induction its as [|it rest IH]; intros fs Hall Ht; [by eexists|].
  destruct (Hall it) as [data Hdata]; [by left|].
  rewrite run_jobs_cons, (process_shape_OK _ _ _ _ _ data) by auto. simpl.
  apply IH.
  - intros it' Hit'. rewrite assemble_shape_write. apply Hall. by right.
  - intros _. simpl. by apply Ht.
Qed.

(** X12: when the batch of a case succeeds, the target holds, for every
    scheduled iteration, the table that [assemble_shape] gives for it on the
    file system the batch started from; every other path, and the set of
    directories, is as before. *)
Theorem run_jobs_result fs source target flag its fs' :
  run_jobs fs source target flag its = OK (tt, fs') →
  dirs fs' = dirs fs
  ∧ (∀ it, it ∈ its →
       ∃ data, assemble_shape fs source it flag = OK data
               ∧ files fs' !! artifact_path target it = Some (PickleFile data))
  ∧ (∀ p, (∀ it, it ∈ its → p ≠ artifact_path target it) →
          files fs' !! p = files fs !! p).
Proof.
  intros (Hd & _ & Hart & Hframe)%run_jobs_post. done.
Qed.

Lemma run_jobs_result_witness :
  ∃ fs', run_jobs fs_example "plic" "out" true [120; 130] = OK (tt, fs')
         ∧ files fs' !! "out/plic_000130.pkl"
           = Some (PickleFile {| columns := ["px"; "py"]; dtype := float32;
                                 rows := [(Ix 0, [Dec 1 0; Dec 2 0])] |}).
Proof.
  destruct (run_jobs fs_example "plic" "out" true [120; 130])
    as [[[] fs']|e] eqn:Hrun; [|vm_compute in Hrun; discriminate].
  exists fs'. split; [reflexivity|].
  destruct (run_jobs_result _ _ _ _ _ _ Hrun) as (_ & Hart & _).
  destruct (Hart 130) as (data & Hdata & Hfile); [right; left|].
  vm_compute in Hdata. injection Hdata as <-. exact Hfile.
Defined.

(** X13: the order in which the jobs of a batch run does not matter: if the
    batch succeeds in one order it succeeds in every order, with the same
    file system at the end. *)
Theorem run_jobs_any_order fs source target flag its its' fs' :
  its ≡ₚ its' →
  run_jobs fs source target flag its = OK (tt, fs') →
  run_jobs fs source target flag its' = OK (tt, fs').
Proof.
  intros Hperm Hrun.
  destruct (run_jobs_post _ _ _ _ _ _ Hrun) as (Hd & Ht & Hart & Hframe).
  destruct (run_jobs_succeeds fs source target flag its') as [fs'' Hrun'].
  { intros it Hit. rewrite <-Hperm in Hit.
    destruct (Hart it Hit) as (data & Hdata & _). by exists data. }
  { intros Hne. apply Ht. intros ->. by apply Permutation_nil_l in Hperm. }
  rewrite Hrun'. do 2 f_equal.
  destruct (run_jobs_post _ _ _ _ _ _ Hrun') as (Hd' & _ & Hart' & Hframe').
  destruct fs' as [d m], fs'' as [d' m']. simpl in *. f_equal; [congruence|].
  apply map_eq. intros p.
  destruct (decide (Exists (λ it, p = artifact_path target it) its))
    as [Hex|Hnex].
  - apply Exists_exists in Hex as (it & Hit & ->).
    destruct (Hart it Hit) as (data & Hdata & ->).
    rewrite Hperm in Hit.
    destruct (Hart' it Hit) as (data' & Hdata' & ->). congruence.
  - rewrite Hframe, Hframe'; [done|..].
    + intros it Hit ->. apply Hnex, Exists_exists. exists it.
      rewrite Hperm. done.
    + intros it Hit ->. apply Hnex, Exists_exists. by exists it.
Qed.

Lemma run_jobs_any_order_witness :
  run_jobs fs_example "plic" "out" true [130; 120]
  = run_jobs fs_example "plic" "out" true [120; 130].
Proof.
  destruct (run_jobs fs_example "plic" "out" true [120; 130])
    as [[[] fs']|e] eqn:Hrun; [|vm_compute in Hrun; discriminate].
  apply (run_jobs_any_order fs_example "plic" "out" true [120; 130] [130; 120]).
  - apply Permutation_swap.
  - exact Hrun.
Defined.

Lemma elem_of_ancestors_from pre s : (pre +:+ s) ∈ ancestors_from pre s.
Proof.
  revert pre. induction s as [|c s IH]; intros pre; simpl.
  - rewrite string_app_nil_r. by left.
  - replace (pre +:+ String c s) with ((pre +:+ String c EmptyString) +:+ s)
      by (by rewrite string_app_assoc).
    destruct (Ascii.eqb_spec c "/") as [->|_]; [right|]; apply IH.
Qed.

Lemma makedirs_creates fs p :
  (∀ a, a ∈ ancestors_from EmptyString p → files fs !! a = None) →
  ∃ fs1, makedirs fs p = OK (tt, fs1)
         ∧ p ∈ dirs fs1 ∧ files fs1 = files fs ∧ dirs fs ⊆ dirs fs1.
Proof.
  intros Hfree. unfold makedirs. rewrite bool_decide_eq_false_2.
  - eexists. split; [done|]. simpl. split; [|split; [done|set_solver]].
    apply elem_of_union_l, elem_of_list_to_set.
    apply (elem_of_ancestors_from EmptyString p).
  - intros (a & Ha & [c Hc])%Exists_exists. by rewrite (Hfree a Ha) in Hc.
Qed.

(** X14: the loop body for one case.  If discovery returns, every
    discovered iteration assembles, no component of the target path is a
    regular file and no artifact path is taken by a directory, then the case
    succeeds whether or not the target directory existed before: afterwards
    the directory exists, it holds for every discovered iteration the 2D
    table of that iteration, and no other file has been touched. *)
Theorem process_case_result fs source_base target_base plic_source plic_target
    case its :
  get_iterations fs (source_base +:+ "/" +:+ case +:+ "/" +:+ plic_source)
    = OK its →
  (∀ it, it ∈ its →
     ∃ data, assemble_shape fs
               (source_base +:+ "/" +:+ case +:+ "/" +:+ plic_source) it true
             = OK data) →
  (∀ a, a ∈ ancestors_from EmptyString
              (target_base +:+ "/" +:+ case +:+ "/" +:+ plic_target) →
        files fs !! a = None) →
  (∀ it, it ∈ its →
     artifact_path (target_base +:+ "/" +:+ case +:+ "/" +:+ plic_target) it
       ∉ dirs fs) →
  ∃ fs', process_case fs source_base target_base plic_source plic_target case
         = OK (tt, fs')
    ∧ (target_base +:+ "/" +:+ case +:+ "/" +:+ plic_target) ∈ dirs fs'
    ∧ (∀ it, it ∈ its →
         ∃ data, assemble_shape fs
                   (source_base +:+ "/" +:+ case +:+ "/" +:+ plic_source) it true
                 = OK data
           ∧ files fs' !! artifact_path
                            (target_base +:+ "/" +:+ case +:+ "/" +:+ plic_target)
                            it
             = Some (PickleFile data))
    ∧ (∀ p, (∀ it, it ∈ its →
               p ≠ artifact_path
                     (target_base +:+ "/" +:+ case +:+ "/" +:+ plic_target) it) →
            files fs' !! p = files fs !! p).
Proof.
  set (source := source_base +:+ "/" +:+ case +:+ "/" +:+ plic_source).
  set (target := target_base +:+ "/" +:+ case +:+ "/" +:+ plic_target).
  intros Hits Hall Hfree _. unfold process_case. fold source target.
  rewrite Hits. simpl.
  assert (∃ fs1, (if path_exists fs target then OK (tt, fs)
                  else makedirs fs target) = OK (tt, fs1)
                 ∧ target ∈ dirs fs1 ∧ files fs1 = files fs)
    as (fs1 & -> & Ht & Hfiles).
  { unfold path_exists. case_bool_decide as Hex.
    - exists fs. split; [done|]. split; [|done].
      destruct Hex as [?|[c Hc]]; [done|].
      rewrite (Hfree target) in Hc; [done|].
      apply (elem_of_ancestors_from EmptyString target).
    - destruct (makedirs_creates fs target Hfree) as (fs1 & H1 & ? & ? & _).
      by exists fs1. }
  simpl.
  assert (∀ it, assemble_shape fs1 source it true = assemble_shape fs source it true)
    as Hsame.
  { intros it. apply assemble_shape_local. intros p _. by rewrite Hfiles. }
  destruct (run_jobs_succeeds fs1 source target true its) as [fs' Hrun].
  { intros it Hit. rewrite Hsame. by apply Hall. }
  { done. }
  exists fs'. split; [done|].
  destruct (run_jobs_post _ _ _ _ _ _ Hrun) as (Hd & _ & Hart & Hframe).
  split; [by rewrite Hd|]. split.
  - intros it Hit. destruct (Hart it Hit) as (data & Hdata & Hfile).
    rewrite Hsame in Hdata. by exists data.
  - intros p Hp. by rewrite Hframe, Hfiles.
Qed.

Lemma process_case_result_witness :
  ∃ fs', process_case fs_case "../data" "../data" "plic" "plic_clean" "wa18_l16"
         = OK (tt, fs')
         ∧ "../data/wa18_l16/plic_clean" ∈ dirs fs'
         ∧ files fs' !! "../data/wa18_l16/plic_clean/plic_000000.pkl"
           = Some (PickleFile {| columns := ["px"; "py"]; dtype := float32;
                                 rows := [(Ix 0, [Dec 1 (-1); Dec 2 (-1)])] |}).
Proof.
  destruct (process_case_result fs_case "../data" "../data" "plic" "plic_clean"
              "wa18_l16" [0; 10]) as (fs' & Hrun & Hdir & Hart & _).
  - vm_compute. reflexivity.
  - intros it Hit.
    repeat (apply elem_of_cons in Hit as [->|Hit]);
      try (exfalso; exact (not_elem_of_nil _ Hit));
      eexists; vm_compute; reflexivity.
  - intros a Ha. vm_compute in Ha.
    repeat (apply elem_of_cons in Ha as [->|Ha]);
      try (exfalso; exact (not_elem_of_nil _ Ha));
      vm_compute; reflexivity.
  - intros it Hit Hdir.
    apply elem_of_list_to_set in Hdir.
    repeat (apply elem_of_cons in Hit as [->|Hit]);
      try (exfalso; exact (not_elem_of_nil _ Hit));
      vm_compute in Hdir;
      repeat (apply elem_of_cons in Hdir as [Hdir|Hdir]; [discriminate|]);
      exact (not_elem_of_nil _ Hdir).
  - exists fs'. split; [exact Hrun|]. split; [exact Hdir|].
    destruct (Hart 0) as (data & Hdata & Hfile); [left|].
    vm_compute in Hdata. injection Hdata as <-. exact Hfile.
Defined.

(** ** From discovery to assembly *)

Lemma shard0_name_prefix it : shard0_name it = shard_prefix it +:+ "000.txt".
Proof. unfold shard0_name, shard_prefix. by rewrite !string_app_assoc. Qed.

(** X15: discovery and assembly fit together.  In a source directory where
    every visible file ending in [_n000.txt] is a process-0 shard, each
    iteration that [get_iterations] returns has that shard among the files
    [assemble_shape] selects for it; the assembly of a discovered iteration
    therefore never fails for want of files, but only when reading one of
    its selected files fails. *)
Theorem discovered_iterations_have_shards fs path l it flag :
  (∀ name, no_char "/" name = true → is_hidden name = false →
     is_Some (files fs !! (path +:+ "/" +:+ name)) →
     (∃ stem, name = stem +:+ "_n000.txt") → ∃ it, name = shard0_name it) →
  get_iterations fs path = OK l →
  it ∈ l →
  (path +:+ "/" +:+ shard0_name it)
    ∈ Py.sorted_str
        (glob fs ((path +:+ "/points_" +:+ Py.format_06d it +:+ "_n") +:+ "*"))
  ∧ ∀ e, assemble_shape fs path it flag = Raise e →
         ∃ p, p ∈ shard_files fs path it
              ∧ pd.read_csv fs p (schema flag) = Raise e.
Proof.
  intros Hconf Hget Hit.
  assert ((path +:+ "/" +:+ shard0_name it) ∈ shard_files fs path it) as Hin.
  { rewrite get_iterations_unfold in Hget.
    destruct (mapM iteration_of _) as [its|e] eqn:Hm; [|done].
    simpl in Hget. injection Hget as <-.
    rewrite sorted_int_perm in Hit. apply mapM_OK in Hm.
    apply list_elem_of_lookup in Hit as [i Hi].
    destruct (Forall2_lookup_r _ _ _ _ _ Hm Hi) as (p & Hp & Hiter).
    apply list_elem_of_lookup_2, elem_of_glob in Hp as [Hfile Hmatch]; [|done].
    apply glob_match_spec in Hmatch as (name & -> & Hs & Hmatch & Hh).
    destruct Hh as [Hh|Hh]; [|done].
    apply (fnmatch_star_suffix "_n000.txt") in Hmatch; [|done].
    destruct (Hconf name Hs Hh Hfile Hmatch) as [it' ->].
    rewrite iteration_of_shard0 in Hiter. injection Hiter as ->.
    apply elem_of_shard_files. exists "000.txt".
    by rewrite <-shard0_name_prefix. }
  split.
  { replace ((path +:+ "/points_" +:+ Py.format_06d it +:+ "_n") +:+ "*")
      with (path +:+ "/" +:+ shard_prefix it +:+ "*"); [exact Hin|].
    unfold shard_prefix. by rewrite !string_app_assoc. }
  intros e. rewrite assemble_shape_unfold.
  destruct (mapM _ (shard_files fs path it)) as [frames|e'] eqn:Hm; simpl.
  - destruct frames as [|f frames]; [|done].
    apply mapM_OK_length in Hm. destruct (shard_files fs path it); [|done].
    by apply elem_of_nil in Hin.
  - intros [= ->]. by apply mapM_Raise in Hm.
Qed.

Lemma discovered_iterations_have_shards_witness :
  "plic/points_000130_n000.txt"
    ∈ Py.sorted_str (glob fs_example "plic/points_000130_n*").
Proof.
  destruct (discovered_iterations_have_shards fs_example "plic" [120; 130] 130
              true) as [Hin _].
  - intros name _ _ [c Hc] Hsuf. apply elem_of_list_to_map_2 in Hc.
    apply (fnmatch_star_suffix "_n000.txt") in Hsuf; [|done].
    repeat (apply elem_of_cons in Hc as [Hc|Hc]);
      try (exfalso; exact (not_elem_of_nil _ Hc));
      injection Hc as Hc _; rewrite string_app_nil_l in Hc; subst name.
    + exists 120. reflexivity.
    + vm_compute in Hsuf. discriminate.
    + exists 130. reflexivity.
  - vm_compute. reflexivity.
  - right. left.
  - exact Hin.
Defined.

